(** * qmk generate-config-h: the info_config.h generator

    A shallow embedding of [lib/python/qmk/cli/generate/config_h.py] and the
    properties of the header text it produces.

    The resolved [info.json] dictionary is a record of optional fields (a key
    that is absent from the dictionary is [None]); the [usb] sub-dictionary,
    which the code walks with a loop over [usb_properties.items()], is a finite
    map from key to value.  Python exceptions are an explicit [Raise] result;
    logging, printing and file operations of the command are a trace of
    events. *)

From Stdlib Require Import String Ascii ZArith DecimalString.
From Stdlib Require DecimalNat DecimalFacts.
From stdpp Require Import base option list strings gmap.

Local Open Scope string_scope.
Local Open Scope list_scope.

(** Appending to a literal computes. *)
#[local] Arguments String.append : simpl nomatch.

(** ** Python values and string primitives *)

(** The exceptions the generator can raise on a well-typed dictionary. *)
Inductive exn : Type :=
  | IndexError.

Inductive result (A : Type) : Type :=
  | Ok (a : A)
  | Raise (e : exn).
Arguments Ok {A} a.
Arguments Raise {A} e.

#[global] Instance result_ret : MRet result := λ A a, Ok a.

#[global] Instance result_bind : MBind result := λ A B k m,
  match m with
  | Ok a => k a
  | Raise e => Raise e
  end.

(** A leaf of the [usb] dictionary: a string or an integer literal. *)
Inductive scalar : Type :=
  | SStr (s : string)
  | SInt (z : Z).

(** [str(n)] for the result of [len(...)]. *)
Definition str_of_nat (n : nat) : string :=
  NilZero.string_of_uint (Nat.to_uint n).

(** [str(z)] for an integer. *)
Definition str_of_Z (z : Z) : string :=
  NilZero.string_of_int (Z.to_int z).

(** What [%s] substitutes for a leaf. *)
Definition py_str (v : scalar) : string :=
  match v with
  | SStr s => s
  | SInt z => str_of_Z z
  end.

(** [sep.join(l)]. *)
Definition join (sep : string) (l : list string) : string :=
  String.concat sep l.

(** The line feed, and the double quote of the log message. *)
Definition LF : ascii := "010"%char.
Definition nl : string := String LF "".
Definition dquote : string := String "034"%char "".

(** [col or 'NO_PIN']: [None] and the empty string are falsy. *)
Definition or_else (col : option string) (default : string) : string :=
  match col with
  | Some "" => default
  | Some s => s
  | None => default
  end.

(** ** The configuration record *)

Record MatrixPins : Type := {
  mp_direct : option (list (list (option string)));
  mp_cols : option (list string);
  mp_rows : option (list string)
}.

Record ConfigRecord : Type := {
  info_diode_direction : option string;
  info_keyboard_name : option string;
  info_manufacturer : option string;
  info_matrix_pins : option MatrixPins;
  info_usb : option (gmap string scalar)
}.

(** ** The fragment builders *)

Definition usb_properties : list (string * string) :=
  [("vid", "VENDOR_ID"); ("pid", "PRODUCT_ID"); ("device_ver", "DEVICE_VER")].

Definition diode_direction (diode_direction : string) : string :=
"
#ifndef DIODE_DIRECTION
#   define DIODE_DIRECTION " +:+ diode_direction +:+ "
#endif // DIODE_DIRECTION
".

Definition keyboard_name (keyboard_name : string) : string :=
"
#ifndef DESCRIPTION
#    define DESCRIPTION " +:+ keyboard_name +:+ "
#endif // DESCRIPTION

#ifndef PRODUCT
#    define PRODUCT " +:+ keyboard_name +:+ "
#endif // PRODUCT
".

Definition manufacturer (manufacturer : string) : string :=
"
#ifndef MANUFACTURER
#    define MANUFACTURER " +:+ manufacturer +:+ "
#endif // MANUFACTURER
".

(** The loop of [direct_pins]: one brace-enclosed comma list per row,
    appended to [rows]. *)
Definition direct_pins_rows (direct_pins : list (list (option string))) : list string :=
  foldl (λ rows row,
           let cols := join "," ((λ col, or_else col "NO_PIN") <$> row) in
           rows ++ ["{" +:+ cols +:+ "}"])
        [] direct_pins.

Definition direct_pins (direct_pins : list (list (option string))) : result string :=
  let rows := direct_pins_rows direct_pins in
  col_count ← match direct_pins !! 0%nat with
                   | Some row0 => Ok (length row0)
                   | None => Raise IndexError
                   end;
  let row_count := length direct_pins in
  Ok ("
#ifndef MATRIX_COLS
#    define MATRIX_COLS " +:+ str_of_nat col_count +:+ "
#endif // MATRIX_COLS

#ifndef MATRIX_ROWS
#    define MATRIX_ROWS " +:+ str_of_nat row_count +:+ "
#endif // MATRIX_ROWS

#ifndef DIRECT_PINS
#    define DIRECT_PINS {" +:+ join "," rows +:+ "}
#endif // DIRECT_PINS
").

Definition col_pins (col_pins : list string) : string :=
  let cols := join "," col_pins in
  let col_num := length col_pins in
"
#ifndef MATRIX_COLS
#    define MATRIX_COLS " +:+ str_of_nat col_num +:+ "
#endif // MATRIX_COLS

#ifndef MATRIX_COL_PINS
#    define MATRIX_COL_PINS {" +:+ cols +:+ "}
#endif // MATRIX_COL_PINS
".

Definition row_pins (row_pins : list string) : string :=
  let rows := join "," row_pins in
  let row_num := length row_pins in
"
#ifndef MATRIX_ROWS
#    define MATRIX_ROWS " +:+ str_of_nat row_num +:+ "
#endif // MATRIX_ROWS

#ifndef MATRIX_ROW_PINS
#    define MATRIX_ROW_PINS {" +:+ rows +:+ "}
#endif // MATRIX_ROW_PINS
".

(** ** The generator *)

Definition generated_comment : string :=
  "/* This file was generated by `qmk generate-config-h`. Do not edit or copy." +:+ " */".

(** One turn of the loop over [usb_properties.items()]. *)
Definition usb_step (usb : gmap string scalar) (config_h_lines : list string)
    (item : string * string) : list string :=
  let '(info_name, config_name) := item in
  match usb !! info_name with
  | Some value =>
      config_h_lines ++
        [""; "#ifndef " +:+ config_name;
         "#    define " +:+ config_name +:+ " " +:+ py_str value;
         "#endif // " +:+ config_name]
  | None => config_h_lines
  end.

(** The list [config_h_lines] as the command has built it when it reaches the
    join. *)
Definition config_h_lines (kb_info_json : ConfigRecord) : result (list string) :=
  let config_h_lines := [generated_comment; ""; "#pragma once"] in
  let config_h_lines :=
    match info_diode_direction kb_info_json with
    | Some v => config_h_lines ++ [diode_direction v]
    | None => config_h_lines
    end in
  let config_h_lines :=
    match info_keyboard_name kb_info_json with
    | Some v => config_h_lines ++ [keyboard_name v]
    | None => config_h_lines
    end in
  let config_h_lines :=
    match info_manufacturer kb_info_json with
    | Some v => config_h_lines ++ [manufacturer v]
    | None => config_h_lines
    end in
  config_h_lines ←
    match info_matrix_pins kb_info_json with
    | Some matrix_pins =>
        config_h_lines ←
          match mp_direct matrix_pins with
          | Some v => fragment ← direct_pins v; Ok (config_h_lines ++ [fragment])
          | None => Ok config_h_lines
          end;
        let config_h_lines :=
          match mp_cols matrix_pins with
          | Some v => config_h_lines ++ [col_pins v]
          | None => config_h_lines
          end in
        let config_h_lines :=
          match mp_rows matrix_pins with
          | Some v => config_h_lines ++ [row_pins v]
          | None => config_h_lines
          end in
        Ok config_h_lines
    | None => Ok config_h_lines
    end;
  let config_h_lines :=
    match info_usb kb_info_json with
    | Some usb => foldl (usb_step usb) config_h_lines usb_properties
    | None => config_h_lines
    end in
  Ok config_h_lines.

(** The header text: [config_h = '\n'.join(config_h_lines)]. *)
Definition generate (kb_info_json : ConfigRecord) : result string :=
  config_h_lines ← config_h_lines kb_info_json;
  Ok (join nl config_h_lines).

(** ** The command

    [is_keyboard], [info_json] and the test [output.exists()] belong to the
    rest of the tool and to the file system; the command is a function of
    them. *)

Record path : Type := {
  path_str : string;
  path_parent : string;
  path_name : string
}.

Record cli_state : Type := {
  config_keyboard : option string;
  args_output : option path;
  args_quiet : bool
}.

Inductive event : Type :=
  | LogError (msg : string)
  | PrintHelp
  | Mkdir (dir : string)
  | Replace (src : path) (target : string)
  | WriteText (file : path) (text : string)
  | LogInfo (msg : string)
  | Print (text : string).

(** How the call ends: [return False], falling off the end ([None]), or an
    exception that nothing catches. *)
Inductive completion : Type :=
  | Returned (value : option bool)
  | Raised (e : exn).

Section Command.
Variable is_keyboard : string → bool.
Variable info_json : string → ConfigRecord.
Variable output_exists : path → bool.

Definition generate_config_h (cli : cli_state) : list event * completion :=
  match config_keyboard cli with
  | None | Some "" =>
      ([LogError "Missing paramater: --keyboard"; PrintHelp], Returned (Some false))
  | Some keyboard =>
      if negb (is_keyboard keyboard) then
        ([LogError ("Invalid keyboard: " +:+ dquote +:+ keyboard +:+ dquote)],
         Returned (Some false))
      else
        let kb_info_json := info_json keyboard in
        match generate kb_info_json with
        | Raise e => ([], Raised e)
        | Ok config_h =>
            match args_output cli with
            | Some output =>
                ([Mkdir (path_parent output)]
                 ++ (if output_exists output
                     then [Replace output (path_name output +:+ ".bak")] else [])
                 ++ [WriteText output config_h]
                 ++ (if args_quiet cli then []
                     else [LogInfo ("Wrote info_config.h to " +:+ path_str output +:+ ".")]),
                 Returned None)
            | None => ([Print config_h], Returned None)
            end
        end
  end.
End Command.

(** An event that hands header text to the output sink. *)
Definition is_output (e : event) : bool :=
  match e with
  | WriteText _ _ | Print _ => true
  | _ => false
  end.

(** An event that reports an error to the user. *)
Definition is_report (e : event) : bool :=
  match e with
  | LogError _ => true
  | _ => false
  end.

(** ** Reading the header text line by line *)

(** [text.split('\n')]. *)
Fixpoint split_lines (s : string) : list string :=
  match s with
  | "" => [""]
  | String c s' =>
      if Ascii.eqb c LF then "" :: split_lines s'
      else match split_lines s' with
           | l :: ls => String c l :: ls
           | [] => [String c ""]
           end
  end.

Fixpoint no_newline (s : string) : bool :=
  match s with
  | "" => true
  | String c s' => negb (Ascii.eqb c LF) && no_newline s'
  end.

Definition is_blank (c : ascii) : bool :=
  Ascii.eqb c " " || Ascii.eqb c "009".

Fixpoint skip_blanks (s : string) : string :=
  match s with
  | String c s' => if is_blank c then skip_blanks s' else s
  | "" => ""
  end.

Fixpoint strip_prefix (p s : string) : option string :=
  match p, s with
  | "", _ => Some s
  | String a p', String b s' => if Ascii.eqb a b then strip_prefix p' s' else None
  | String _ _, "" => None
  end.

Fixpoint take_token (s : string) : string :=
  match s with
  | String c s' => if is_blank c then "" else String c (take_token s')
  | "" => ""
  end.

(** The macro a line defines, when the line is a [#define] directive: blanks,
    [#], blanks, [define], then the end of the line or a blank and the macro
    name. *)
Definition defined_macro (line : string) : option string :=
  match skip_blanks line with
  | String "#" body =>
      match strip_prefix "define" (skip_blanks body) with
      | Some "" => Some ""
      | Some (String c rest) =>
          if is_blank c then Some (take_token (skip_blanks rest)) else None
      | None => None
      end
  | _ => None
  end.

(** Every [#define] line of [ls] stands between [#ifndef NAME] and
    [#endif // NAME] for the macro it defines; [prev] is the line before. *)
Fixpoint guarded_from (prev : string) (ls : list string) : bool :=
  match ls with
  | [] => true
  | l :: rest =>
      match defined_macro l with
      | Some name =>
          String.eqb prev ("#ifndef " +:+ name)
          && match rest with
             | next :: _ => String.eqb next ("#endif // " +:+ name)
             | [] => false
             end
      | None => true
      end && guarded_from l rest
  end.

Definition guarded (text : string) : bool :=
  guarded_from "" (split_lines text).

(** A list of lines is settled when its [#define] lines are guarded whatever
    line came before it. *)
Definition settled (ls : list string) : Prop :=
  ∀ prev, guarded_from prev ls = true.

(** ** The header as the specification describes it

    One block per field, in the fixed order of the fields; each macro is
    wrapped in its guard. *)

Inductive field : Type :=
  | F_diode_direction
  | F_keyboard_name
  | F_manufacturer
  | F_direct
  | F_cols
  | F_rows
  | F_vid
  | F_pid
  | F_device_ver.

#[global] Instance field_eq_dec : EqDecision field.
Proof. solve_decision. Defined.

Definition field_order : list field :=
  [F_diode_direction; F_keyboard_name; F_manufacturer;
   F_direct; F_cols; F_rows; F_vid; F_pid; F_device_ver].

(** The macro guard: [#ifndef NAME], the definition, [#endif // NAME]. *)
Definition guard_block (indent name value : string) : list string :=
  ["#ifndef " +:+ name;
   "#" +:+ indent +:+ "define " +:+ name +:+ " " +:+ value;
   "#endif // " +:+ name].

(** A cell is its pin identifier, or [NO_PIN] when empty or absent. *)
Definition render_cell (cell : option string) : string :=
  match cell with
  | Some pin => if String.eqb pin "" then "NO_PIN" else pin
  | None => "NO_PIN"
  end.

(** A brace-enclosed comma list. *)
Definition braces (items : list string) : string :=
  "{" +:+ join "," items +:+ "}".

Definition render_grid (grid : list (list (option string))) : string :=
  braces ((λ row, braces (render_cell <$> row)) <$> grid).

Definition direct_of (c : ConfigRecord) : option (list (list (option string))) :=
  info_matrix_pins c ≫= mp_direct.

Definition cols_of (c : ConfigRecord) : option (list string) :=
  info_matrix_pins c ≫= mp_cols.

Definition rows_of (c : ConfigRecord) : option (list string) :=
  info_matrix_pins c ≫= mp_rows.

Definition usb_of (c : ConfigRecord) (key : string) : option scalar :=
  info_usb c ≫= (λ usb, usb !! key).

Definition block_of {A : Type} (o : option A) (lines : A → list string) : list string :=
  match o with
  | Some v => lines v
  | None => []
  end.

(** The lines of the block of a field; no line when the field is absent (or
    when a direct grid has no first row to count). *)
Definition field_lines (c : ConfigRecord) (f : field) : list string :=
  match f with
  | F_diode_direction =>
      block_of (info_diode_direction c) (λ v,
        "" :: guard_block "   " "DIODE_DIRECTION" v ++ [""])
  | F_keyboard_name =>
      block_of (info_keyboard_name c) (λ v,
        "" :: guard_block "    " "DESCRIPTION" v ++
        "" :: guard_block "    " "PRODUCT" v ++ [""])
  | F_manufacturer =>
      block_of (info_manufacturer c) (λ v,
        "" :: guard_block "    " "MANUFACTURER" v ++ [""])
  | F_direct =>
      block_of (direct_of c) (λ grid,
        block_of (grid !! 0%nat) (λ row0,
          "" :: guard_block "    " "MATRIX_COLS" (str_of_nat (length row0)) ++
          "" :: guard_block "    " "MATRIX_ROWS" (str_of_nat (length grid)) ++
          "" :: guard_block "    " "DIRECT_PINS" (render_grid grid) ++ [""]))
  | F_cols =>
      block_of (cols_of c) (λ pins,
        "" :: guard_block "    " "MATRIX_COLS" (str_of_nat (length pins)) ++
        "" :: guard_block "    " "MATRIX_COL_PINS" (braces pins) ++ [""])
  | F_rows =>
      block_of (rows_of c) (λ pins,
        "" :: guard_block "    " "MATRIX_ROWS" (str_of_nat (length pins)) ++
        "" :: guard_block "    " "MATRIX_ROW_PINS" (braces pins) ++ [""])
  | F_vid =>
      block_of (usb_of c "vid") (λ v,
        "" :: guard_block "    " "VENDOR_ID" (py_str v))
  | F_pid =>
      block_of (usb_of c "pid") (λ v,
        "" :: guard_block "    " "PRODUCT_ID" (py_str v))
  | F_device_ver =>
      block_of (usb_of c "device_ver") (λ v,
        "" :: guard_block "    " "DEVICE_VER" (py_str v))
  end.

Definition is_usb_field (f : field) : bool :=
  match f with
  | F_vid | F_pid | F_device_ver => true
  | _ => false
  end.

(** The entries a field adds to the list that is joined at the end: the usb
    fields add their lines one by one, the others add one fragment of several
    lines. *)
Definition field_fragments (c : ConfigRecord) (f : field) : list string :=
  if is_usb_field f then field_lines c f
  else match field_lines c f with
       | [] => []
       | ls => [join nl ls]
       end.

Definition header_lines : list string :=
  [generated_comment; ""; "#pragma once"].

(** The text that continues a header with the lines [ls], each one begun by a
    line feed. *)
Definition more_lines (ls : list string) : string :=
  foldr (λ l rest, nl +:+ l +:+ rest) "" ls.

Definition direct_is_empty (c : ConfigRecord) : bool :=
  match direct_of c with
  | Some [] => true
  | _ => false
  end.

(** ** Fields present, fields removed *)

Definition field_present (c : ConfigRecord) (f : field) : bool :=
  match f with
  | F_diode_direction => bool_decide (is_Some (info_diode_direction c))
  | F_keyboard_name => bool_decide (is_Some (info_keyboard_name c))
  | F_manufacturer => bool_decide (is_Some (info_manufacturer c))
  | F_direct => bool_decide (is_Some (direct_of c))
  | F_cols => bool_decide (is_Some (cols_of c))
  | F_rows => bool_decide (is_Some (rows_of c))
  | F_vid => bool_decide (is_Some (usb_of c "vid"))
  | F_pid => bool_decide (is_Some (usb_of c "pid"))
  | F_device_ver => bool_decide (is_Some (usb_of c "device_ver"))
  end.

Definition set_matrix_pins (c : ConfigRecord) (update : MatrixPins → MatrixPins) : ConfigRecord :=
  {| info_diode_direction := info_diode_direction c;
     info_keyboard_name := info_keyboard_name c;
     info_manufacturer := info_manufacturer c;
     info_matrix_pins := update <$> info_matrix_pins c;
     info_usb := info_usb c |}.

Definition del_usb (c : ConfigRecord) (key : string) : ConfigRecord :=
  {| info_diode_direction := info_diode_direction c;
     info_keyboard_name := info_keyboard_name c;
     info_manufacturer := info_manufacturer c;
     info_matrix_pins := info_matrix_pins c;
     info_usb := delete key <$> info_usb c |}.

(** The record with the key of one field deleted. *)
Definition remove_field (f : field) (c : ConfigRecord) : ConfigRecord :=
  match f with
  | F_diode_direction =>
      {| info_diode_direction := None;
         info_keyboard_name := info_keyboard_name c;
         info_manufacturer := info_manufacturer c;
         info_matrix_pins := info_matrix_pins c;
         info_usb := info_usb c |}
  | F_keyboard_name =>
      {| info_diode_direction := info_diode_direction c;
         info_keyboard_name := None;
         info_manufacturer := info_manufacturer c;
         info_matrix_pins := info_matrix_pins c;
         info_usb := info_usb c |}
  | F_manufacturer =>
      {| info_diode_direction := info_diode_direction c;
         info_keyboard_name := info_keyboard_name c;
         info_manufacturer := None;
         info_matrix_pins := info_matrix_pins c;
         info_usb := info_usb c |}
  | F_direct =>
      set_matrix_pins c (λ mp,
        {| mp_direct := None; mp_cols := mp_cols mp; mp_rows := mp_rows mp |})
  | F_cols =>
      set_matrix_pins c (λ mp,
        {| mp_direct := mp_direct mp; mp_cols := None; mp_rows := mp_rows mp |})
  | F_rows =>
      set_matrix_pins c (λ mp,
        {| mp_direct := mp_direct mp; mp_cols := mp_cols mp; mp_rows := None |})
  | F_vid => del_usb c "vid"
  | F_pid => del_usb c "pid"
  | F_device_ver => del_usb c "device_ver"
  end.

(** A key of the record that can be left out: one of the fields, or one of
    the two sub-records with all the fields it holds. *)
Inductive key : Type :=
  | K_field (f : field)
  | K_matrix_pins
  | K_usb.

Definition key_fields (k : key) : list field :=
  match k with
  | K_field f => [f]
  | K_matrix_pins => [F_direct; F_cols; F_rows]
  | K_usb => [F_vid; F_pid; F_device_ver]
  end.

Definition key_present (c : ConfigRecord) (k : key) : bool :=
  match k with
  | K_field f => field_present c f
  | K_matrix_pins => bool_decide (is_Some (info_matrix_pins c))
  | K_usb => bool_decide (is_Some (info_usb c))
  end.

Definition remove_key (k : key) (c : ConfigRecord) : ConfigRecord :=
  match k with
  | K_field f => remove_field f c
  | K_matrix_pins =>
      {| info_diode_direction := info_diode_direction c;
         info_keyboard_name := info_keyboard_name c;
         info_manufacturer := info_manufacturer c;
         info_matrix_pins := None;
         info_usb := info_usb c |}
  | K_usb =>
      {| info_diode_direction := info_diode_direction c;
         info_keyboard_name := info_keyboard_name c;
         info_manufacturer := info_manufacturer c;
         info_matrix_pins := info_matrix_pins c;
         info_usb := None |}
  end.

(** Two records hold the same value, or none, under each key that the
    generator looks up; the order of their keys and whatever else they hold
    are left open. *)
Definition same_lookups (c c' : ConfigRecord) : Prop :=
  info_diode_direction c' = info_diode_direction c
  ∧ info_keyboard_name c' = info_keyboard_name c
  ∧ info_manufacturer c' = info_manufacturer c
  ∧ direct_of c' = direct_of c
  ∧ cols_of c' = cols_of c
  ∧ rows_of c' = rows_of c
  ∧ Forall (λ item, usb_of c' item.1 = usb_of c item.1) usb_properties.

(** ** Values that stay on their line *)

Definition opt_all {A : Type} (p : A → bool) (o : option A) : bool :=
  match o with
  | Some a => p a
  | None => true
  end.

(** No value that the generator substitutes contains a line feed. *)
Definition single_line (c : ConfigRecord) : bool :=
  opt_all no_newline (info_diode_direction c)
  && opt_all no_newline (info_keyboard_name c)
  && opt_all no_newline (info_manufacturer c)
  && opt_all (forallb (forallb (opt_all no_newline))) (direct_of c)
  && opt_all (forallb no_newline) (cols_of c)
  && opt_all (forallb no_newline) (rows_of c)
  && forallb (λ item, opt_all (λ v, no_newline (py_str v)) (usb_of c item.1)) usb_properties.

(** The record with no key at all. *)
Definition empty_record : ConfigRecord :=
  {| info_diode_direction := None;
     info_keyboard_name := None;
     info_manufacturer := None;
     info_matrix_pins := None;
     info_usb := None |}.

(** The first line of a text. *)
Definition first_line (text : string) : string :=
  match split_lines text with
  | l :: _ => l
  | [] => ""
  end.

(** The text holds the lines [ls], one after the other, each begun by a line
    feed. *)
Definition has_lines (text : string) (ls : list string) : Prop :=
  ∃ before after, text = before +:+ more_lines ls +:+ after.

(** How many of the lines [ls] are the line [l]. *)
Definition count_line (l : string) (ls : list string) : nat :=
  length (List.filter (String.eqb l) ls).

(** ** Sample records *)

Definition with_manufacturer (v : string) : ConfigRecord :=
  {| info_diode_direction := None;
     info_keyboard_name := None;
     info_manufacturer := Some v;
     info_matrix_pins := None;
     info_usb := None |}.

Definition with_matrix_pins (mp : MatrixPins) : ConfigRecord :=
  {| info_diode_direction := None;
     info_keyboard_name := None;
     info_manufacturer := None;
     info_matrix_pins := Some mp;
     info_usb := None |}.

(** [{"manufacturer": "ACME\n#define DEBUG 1"}] *)
Definition injected_record : ConfigRecord :=
  with_manufacturer ("ACME" +:+ nl +:+ "#define DEBUG 1").

Definition injected_text : string :=
"/* This file was generated by `qmk generate-config-h`. Do not edit or copy. */

#pragma once

#ifndef MANUFACTURER
#    define MANUFACTURER ACME
#define DEBUG 1
#endif // MANUFACTURER
".

(** [{"matrix_pins": {"direct": []}}] *)
Definition empty_direct_record : ConfigRecord :=
  with_matrix_pins {| mp_direct := Some []; mp_cols := None; mp_rows := None |}.

(** [{"matrix_pins": {"cols": ["A0","A1"], "rows": ["B0"]}}] *)
Definition scenario_B : ConfigRecord :=
  with_matrix_pins
    {| mp_direct := None; mp_cols := Some ["A0"; "A1"]; mp_rows := Some ["B0"] |}.

(** [{"matrix_pins": {"direct": [["A0","A1"],["","B1"]]}}] *)
Definition scenario_C : ConfigRecord :=
  with_matrix_pins
    {| mp_direct := Some [[Some "A0"; Some "A1"]; [Some ""; Some "B1"]];
       mp_cols := None; mp_rows := None |}.

(** A record with every field: a direct grid with an unconnected cell next to
    [cols] and [rows], and the three usb keys. *)
Definition full_record : ConfigRecord :=
  {| info_diode_direction := Some "COL2ROW";
     info_keyboard_name := Some "Planck";
     info_manufacturer := Some "OLKB";
     info_matrix_pins :=
       Some {| mp_direct := Some [[Some "A0"; None]; [Some "B0"; Some "B1"]];
               mp_cols := Some ["C0"; "C1"; "C2"];
               mp_rows := Some ["D0"] |};
     info_usb :=
       Some {[ "vid" := SStr "0xFEED"; "pid" := SStr "0x6060";
               "device_ver" := SInt 1 ]} |}.

(** [full_record] written with its keys in another order, with a key the
    generator does not know in its [usb] sub-record. *)
Definition reordered_record : ConfigRecord :=
  {| info_diode_direction := Some "COL2ROW";
     info_keyboard_name := Some "Planck";
     info_manufacturer := Some "OLKB";
     info_matrix_pins :=
       Some {| mp_direct := Some [[Some "A0"; None]; [Some "B0"; Some "B1"]];
               mp_cols := Some ["C0"; "C1"; "C2"];
               mp_rows := Some ["D0"] |};
     info_usb :=
       Some {[ "device_ver" := SInt 1; "serial" := SStr "0001";
               "pid" := SStr "0x6060"; "vid" := SStr "0xFEED" ]} |}.

(** The text of [full_record]. *)
Definition full_text : string :=
  Eval vm_compute in
    match generate full_record with
    | Ok text => text
    | Raise _ => ""
    end.

Definition sample_cli : cli_state :=
  {| config_keyboard := Some "planck"; args_output := None; args_quiet := false |}.

(** ** Reading the header back

    What a compiler keeps of the generated header: the macros that its
    [#ifndef] / [#define] / [#endif] lines leave defined, given the macros
    defined before the header is read. *)















(** [s.split(sep)] for a separator of one character. *)
Fixpoint split_on (sep : ascii) (s : string) : list string :=
  match s with
  | "" => [""]
  | String c s' =>
      if Ascii.eqb c sep then "" :: split_on sep s'
      else match split_on sep s' with
           | l :: ls => String c l :: ls
           | [] => [String c ""]
           end
  end.

Fixpoint no_char (sep : ascii) (s : string) : bool :=
  match s with
  | "" => true
  | String c s' => negb (Ascii.eqb c sep) && no_char sep s'
  end.

(** The string without its last character, when that is [c]. *)
Fixpoint drop_last (c : ascii) (s : string) : option string :=
  match s with
  | "" => None
  | String a "" => if Ascii.eqb a c then Some "" else None
  | String a s' => String a <$> drop_last c s'
  end.

(** The entries of a brace-enclosed comma list. *)
Definition brace_entries (s : string) : option (list string) :=
  match s with
  | String "{" inner => split_on "," <$> drop_last "}" inner
  | _ => None
  end.


(** ** More readers of the trace *)

(** An event that touches the file system. *)
Definition is_file_event (e : event) : bool :=
  match e with
  | Mkdir _ | Replace _ _ | WriteText _ _ => true
  | _ => false
  end.

Definition is_info (e : event) : bool :=
  match e with
  | LogInfo _ => true
  | _ => false
  end.

(** The keyboard the command works on; none when the configured name is
    missing or empty ([not cli.config.generate_config_h.keyboard]). *)
Definition keyboard_given (cli : cli_state) : option string :=
  match config_keyboard cli with
  | None | Some "" => None
  | Some keyboard => Some keyboard
  end.

Definition with_quiet (quiet : bool) (cli : cli_state) : cli_state :=
  {| config_keyboard := config_keyboard cli;
     args_output := args_output cli;
     args_quiet := quiet |}.

Definition with_usb (usb : gmap string scalar) (c : ConfigRecord) : ConfigRecord :=
  {| info_diode_direction := info_diode_direction c;
     info_keyboard_name := info_keyboard_name c;
     info_manufacturer := info_manufacturer c;
     info_matrix_pins := info_matrix_pins c;
     info_usb := Some usb |}.

Definition sample_path : path :=
  {| path_str := "build/info_config.h"; path_parent := "build"; path_name := "info_config.h" |}.

Definition file_cli : cli_state :=
  {| config_keyboard := Some "planck"; args_output := Some sample_path; args_quiet := false |}.

(** * Properties *)

Lemma Ok_inj {A : Type} (a b : A) : Ok a = Ok b → b = a.
Proof. congruence. Qed.

(** ** Strings and joins *)

Lemma append_nil_r (s : string) : s +:+ "" = s.
Proof. induction s as [|a s IH]; simpl; congruence. Qed.

Lemma append_assoc (s t u : string) : (s +:+ t) +:+ u = s +:+ t +:+ u.
Proof. induction s as [|a s IH]; simpl; congruence. Qed.

Lemma join_cons (l : string) (ls : list string) :
  join nl (l :: ls) = l +:+ more_lines ls.
Proof.
  revert l. induction ls as [|l' ls IH]; intros l.
  - simpl. by rewrite append_nil_r.
  - change (join nl (l :: l' :: ls)) with (l +:+ nl +:+ join nl (l' :: ls)).
    by rewrite IH.
Qed.

Lemma more_lines_app (xs ys : list string) :
  more_lines (xs ++ ys) = more_lines xs +:+ more_lines ys.
Proof.
  induction xs as [|x xs IH]; simpl; [done |].
  by rewrite IH, append_assoc.
Qed.

Lemma more_lines_join (ls : list string) :
  ls ≠ [] → more_lines [join nl ls] = more_lines ls.
Proof.
  destruct ls as [|l ls]; [done | intros _].
  rewrite join_cons.
  change (nl +:+ (l +:+ more_lines ls) +:+ "" = nl +:+ l +:+ more_lines ls).
  by rewrite append_nil_r.
Qed.

Lemma more_lines_flat_map {A : Type} (f g : A → list string) (xs : list A) :
  (∀ x, more_lines (f x) = more_lines (g x)) →
  more_lines (flat_map f xs) = more_lines (flat_map g xs).
Proof.
  intros Hfg. induction xs as [|x xs IH]; simpl; [done |].
  by rewrite !more_lines_app, Hfg, IH.
Qed.

Lemma more_lines_fragments (c : ConfigRecord) (f : field) :
  more_lines (field_fragments c f) = more_lines (field_lines c f).
Proof.
  unfold field_fragments. destruct (is_usb_field f); [done |].
  destruct (field_lines c f) as [|l ls] eqn:E; [done |].
  by apply more_lines_join.
Qed.

(** ** The loops are maps *)

Lemma or_else_render (cell : option string) : or_else cell "NO_PIN" = render_cell cell.
Proof. by destruct cell as [[|a s]|]. Qed.

Lemma direct_pins_rows_map (grid : list (list (option string))) :
  direct_pins_rows grid = (λ row, braces (render_cell <$> row)) <$> grid.
Proof.
  unfold direct_pins_rows.
  enough (∀ acc, foldl (λ rows row,
              rows ++ ["{" +:+ join "," ((λ col, or_else col "NO_PIN") <$> row) +:+ "}"])
            acc grid = acc ++ ((λ row, braces (render_cell <$> row)) <$> grid)) as H
    by apply (H []).
  induction grid as [|row grid IH]; intros acc; simpl.
  - by rewrite app_nil_r.
  - rewrite IH, <- app_assoc. simpl. do 3 f_equal.
    unfold braces. do 3 f_equal.
    apply list_fmap_ext. intros _ cell _. apply or_else_render.
Qed.

Lemma usb_step_block (usb : gmap string scalar) (L : list string) (key name : string) :
  usb_step usb L (key, name) =
  L ++ block_of (usb !! key) (λ v, "" :: guard_block "    " name (py_str v)).
Proof.
  unfold usb_step. destruct (usb !! key); simpl; [done | by rewrite app_nil_r].
Qed.

Lemma append_if {A : Type} (o : option A) (f : A → string) (L : list string) :
  match o with Some v => L ++ [f v] | None => L end
  = L ++ block_of o (λ v, [f v]).
Proof. destruct o; simpl; [done | by rewrite app_nil_r]. Qed.

(** ** The generator builds the blocks of the fields, in their order *)

Lemma direct_pins_spec (grid : list (list (option string))) :
  direct_pins grid =
  match grid !! 0%nat with
  | Some row0 =>
      Ok (join nl
           ("" :: guard_block "    " "MATRIX_COLS" (str_of_nat (length row0)) ++
            "" :: guard_block "    " "MATRIX_ROWS" (str_of_nat (length grid)) ++
            "" :: guard_block "    " "DIRECT_PINS" (render_grid grid) ++ [""]))
  | None => Raise IndexError
  end.
Proof.
  unfold direct_pins. rewrite direct_pins_rows_map.
  destruct (grid !! 0%nat) as [row0|]; [| done].
  unfold render_grid. unfold braces at 2. cbn [mbind result_bind].
  generalize (join "," ((λ row, braces (render_cell <$> row)) <$> grid)).
  generalize (str_of_nat (length row0)), (str_of_nat (length grid)).
  intros a b J. simpl. rewrite !append_assoc. by simpl.
Qed.

Lemma fragments_diode_direction (c : ConfigRecord) :
  field_fragments c F_diode_direction
  = block_of (info_diode_direction c) (λ v, [diode_direction v]).
Proof. unfold field_fragments; simpl. by destruct (info_diode_direction c). Qed.

Lemma fragments_keyboard_name (c : ConfigRecord) :
  field_fragments c F_keyboard_name
  = block_of (info_keyboard_name c) (λ v, [keyboard_name v]).
Proof. unfold field_fragments; simpl. by destruct (info_keyboard_name c). Qed.

Lemma fragments_manufacturer (c : ConfigRecord) :
  field_fragments c F_manufacturer
  = block_of (info_manufacturer c) (λ v, [manufacturer v]).
Proof. unfold field_fragments; simpl. by destruct (info_manufacturer c). Qed.

Lemma fragments_direct (c : ConfigRecord) :
  field_fragments c F_direct
  = block_of (direct_of c) (λ grid,
      match direct_pins grid with Ok fragment => [fragment] | Raise _ => [] end).
Proof.
  unfold field_fragments; simpl. destruct (direct_of c) as [grid|]; [| done].
  simpl. rewrite direct_pins_spec. by destruct (grid !! 0%nat).
Qed.

Lemma fragments_cols (c : ConfigRecord) :
  field_fragments c F_cols = block_of (cols_of c) (λ v, [col_pins v]).
Proof.
  unfold field_fragments; simpl. destruct (cols_of c) as [pins|]; [| done].
  unfold col_pins, braces. generalize (join "," pins), (str_of_nat (length pins)).
  intros J a. simpl. rewrite !append_assoc. by simpl.
Qed.

Lemma fragments_rows (c : ConfigRecord) :
  field_fragments c F_rows = block_of (rows_of c) (λ v, [row_pins v]).
Proof.
  unfold field_fragments; simpl. destruct (rows_of c) as [pins|]; [| done].
  unfold row_pins, braces. generalize (join "," pins), (str_of_nat (length pins)).
  intros J a. simpl. rewrite !append_assoc. by simpl.
Qed.

Lemma config_h_lines_spec (c : ConfigRecord) :
  config_h_lines c =
  if direct_is_empty c then Raise IndexError
  else Ok (header_lines ++ flat_map (field_fragments c) field_order).
Proof.
  unfold field_order, flat_map.
  rewrite fragments_diode_direction, fragments_keyboard_name, fragments_manufacturer,
    fragments_direct, fragments_cols, fragments_rows.
  unfold field_fragments, field_lines, is_usb_field.
  unfold config_h_lines, direct_is_empty, direct_of, cols_of, rows_of, usb_of.
  destruct c as [dd kn mf mp usb].
  cbn [info_diode_direction info_keyboard_name info_manufacturer info_matrix_pins info_usb].
  cbv zeta. rewrite !append_if. unfold usb_properties, header_lines.
  destruct mp as [[[[|row0 grid]|] cs rs]|]; [done | ..];
    cbn [mbind option_bind result_bind mp_direct mp_cols mp_rows block_of];
    rewrite ?direct_pins_spec; cbn [lookup list_lookup mbind result_bind];
    f_equal.
  all: try destruct cs; try destruct rs; cbn [block_of].
  all: destruct usb as [usb|]; cbn [mbind option_bind block_of foldl];
    rewrite ?usb_step_block, ?app_nil_r, <- ?app_assoc; reflexivity.
Qed.

Lemma generate_spec (c : ConfigRecord) :
  generate c =
  if direct_is_empty c then Raise IndexError
  else Ok (generated_comment +:+
           more_lines ([""; "#pragma once"] ++ flat_map (field_lines c) field_order)).
Proof.
  unfold generate. rewrite config_h_lines_spec.
  destruct (direct_is_empty c); [done |].
  cbn [mbind result_bind]. f_equal.
  unfold header_lines. cbn [app]. rewrite join_cons.
  f_equal. change (?a :: ?b :: ?l) with ([a; b] ++ l).
  rewrite !more_lines_app. f_equal.
  apply more_lines_flat_map, more_lines_fragments.
Qed.

(** ** Lines of the generated text *)

Lemma no_newline_app (s t : string) :
  no_newline (s +:+ t) = no_newline s && no_newline t.
Proof.
  induction s as [|a s IH]; simpl; [done |].
  by rewrite IH, andb_assoc.
Qed.

Lemma no_newline_join (sep : string) (l : list string) :
  no_newline sep = true → forallb no_newline l = true →
  no_newline (join sep l) = true.
Proof.
  intros Hsep. induction l as [|x [|y l] IH]; simpl; intros H; [done | |].
  - by rewrite andb_true_r in H.
  - apply andb_prop in H as [Hx H].
    change (no_newline (x +:+ sep +:+ join sep (y :: l)) = true).
    rewrite !no_newline_app, Hx, Hsep. simpl. by apply IH.
Qed.

Lemma no_newline_uint (d : Decimal.uint) :
  no_newline (NilEmpty.string_of_uint d) = true.
Proof. induction d; simpl; done. Qed.

Lemma no_newline_str_of_nat (n : nat) : no_newline (str_of_nat n) = true.
Proof.
  unfold str_of_nat, NilZero.string_of_uint.
  destruct (Nat.to_uint n); try done; apply no_newline_uint.
Qed.

Lemma no_newline_braces (items : list string) :
  forallb no_newline items = true → no_newline (braces items) = true.
Proof.
  intros H. unfold braces. rewrite !no_newline_app, no_newline_join; done.
Qed.

Lemma no_newline_render_cell (cell : option string) :
  opt_all no_newline cell = true → no_newline (render_cell cell) = true.
Proof. destruct cell as [[|a s]|]; simpl; done. Qed.

Lemma forallb_fmap_true {A B : Type} (p : A → bool) (q : B → bool) (f : A → B)
    (l : list A) :
  (∀ x, p x = true → q (f x) = true) →
  forallb p l = true → forallb q (f <$> l) = true.
Proof.
  intros Hpq. induction l as [|x l IH]; cbn [fmap list_fmap forallb]; [done |].
  intros [Hx Hl]%andb_prop. by rewrite (Hpq x Hx), IH.
Qed.

Lemma no_newline_render_grid (grid : list (list (option string))) :
  forallb (forallb (opt_all no_newline)) grid = true →
  no_newline (render_grid grid) = true.
Proof.
  intros H. apply no_newline_braces.
  eapply forallb_fmap_true; [| exact H].
  intros row Hrow. apply no_newline_braces.
  eapply forallb_fmap_true; [| exact Hrow].
  apply no_newline_render_cell.
Qed.

Lemma split_lines_single (s : string) :
  no_newline s = true → split_lines s = [s].
Proof.
  induction s as [|a s IH]; simpl; [done |].
  intros [Ha Hs]%andb_prop. apply negb_true_iff in Ha. rewrite Ha, IH; done.
Qed.

Lemma split_lines_line (s rest : string) :
  no_newline s = true → split_lines (s +:+ String LF rest) = s :: split_lines rest.
Proof.
  induction s as [|a s IH]; simpl; [done |].
  intros [Ha Hs]%andb_prop. apply negb_true_iff in Ha. rewrite Ha, IH; done.
Qed.

Lemma split_lines_more_lines (l : string) (ls : list string) :
  no_newline l = true → forallb no_newline ls = true →
  split_lines (l +:+ more_lines ls) = l :: ls.
Proof.
  revert l. induction ls as [|l' ls IH]; simpl; intros l Hl Hls.
  - rewrite append_nil_r. by apply split_lines_single.
  - apply andb_prop in Hls as [Hl' Hls].
    change (nl +:+ l' +:+ more_lines ls) with (String LF (l' +:+ more_lines ls)).
    rewrite split_lines_line by done. by rewrite IH.
Qed.

(** ** Guards *)

Lemma settled_nil : settled [].
Proof. done. Qed.

Lemma settled_plain (l : string) (rest : list string) :
  defined_macro l = None → settled rest → settled (l :: rest).
Proof. intros Hl Hrest prev. simpl. by rewrite Hl, Hrest. Qed.

Lemma settled_guard (indent name value : string) (rest : list string) :
  defined_macro ("#" +:+ indent +:+ "define " +:+ name +:+ " " +:+ value) = Some name →
  settled rest →
  settled ("" :: guard_block indent name value ++ rest).
Proof.
  intros Hdef Hrest prev. unfold guard_block. cbn [app guarded_from].
  rewrite Hdef, Hrest, !String.eqb_refl. reflexivity.
Qed.

Create HintDb guards.
#[local] Hint Resolve settled_nil : guards.
#[local] Hint Extern 1 (settled ("" :: guard_block _ _ _ ++ _)) =>
  apply settled_guard; [reflexivity |] : guards.
#[local] Hint Extern 2 (settled (_ :: _)) =>
  apply settled_plain; [reflexivity |] : guards.

Lemma settled_field (c : ConfigRecord) (f : field) (rest : list string) :
  settled rest → settled (field_lines c f ++ rest).
Proof.
  intros Hrest.
  destruct f; unfold field_lines, block_of;
    repeat match goal with
           | |- context [match ?o with Some _ => _ | None => _ end] => destruct o
           end;
    repeat first [rewrite <- app_assoc | rewrite <- app_comm_cons | progress cbn [app]];
    auto 10 with guards.
Qed.

Lemma settled_fields (c : ConfigRecord) (fs : list field) :
  settled (flat_map (field_lines c) fs).
Proof.
  induction fs as [|f fs IH]; simpl; [apply settled_nil |].
  by apply settled_field.
Qed.

Lemma settled_header (rest : list string) :
  settled rest → settled (generated_comment :: "" :: "#pragma once" :: rest).
Proof. intros Hrest. auto 10 with guards. Qed.

Lemma no_newline_guard_block (indent name value : string) :
  no_newline indent = true → no_newline name = true → no_newline value = true →
  forallb no_newline (guard_block indent name value) = true.
Proof.
  intros Hi Hn Hv. unfold guard_block. cbn [forallb].
  rewrite !no_newline_app, Hi, Hn, Hv. reflexivity.
Qed.

Lemma forallb_app_true {A : Type} (p : A → bool) (xs ys : list A) :
  forallb p xs = true → forallb p ys = true → forallb p (xs ++ ys) = true.
Proof. intros Hx Hy. by rewrite forallb_app, Hx, Hy. Qed.

Lemma forallb_cons_true {A : Type} (p : A → bool) (x : A) (xs : list A) :
  p x = true → forallb p xs = true → forallb p (x :: xs) = true.
Proof. intros Hx Hxs. simpl. by rewrite Hx, Hxs. Qed.

Create HintDb lines.
#[local] Hint Resolve no_newline_guard_block forallb_app_true forallb_cons_true
  no_newline_str_of_nat no_newline_braces no_newline_render_grid : lines.
#[local] Hint Extern 1 (no_newline _ = true) => reflexivity : lines.
#[local] Hint Extern 1 (forallb _ [] = true) => reflexivity : lines.

Lemma single_line_field (c : ConfigRecord) (f : field) :
  single_line c = true → forallb no_newline (field_lines c f) = true.
Proof.
  unfold single_line. cbn [forallb usb_properties fst].
  intros H.
  repeat match goal with
         | H : _ && _ = true |- _ => apply andb_prop in H as [? ?]
         end.
  destruct f; unfold field_lines, block_of;
    repeat match goal with
           | |- context [match ?o with Some _ => _ | None => _ end] =>
               destruct o eqn:?
           end;
    cbn [opt_all] in *; auto 10 with lines.
Qed.

Lemma single_line_fields (c : ConfigRecord) (fs : list field) :
  single_line c = true → forallb no_newline (flat_map (field_lines c) fs) = true.
Proof.
  intros H. induction fs as [|f fs IH]; simpl; [done |].
  apply forallb_app_true; [by apply single_line_field | done].
Qed.

(** The lines of the text of a record whose values stay on their line. *)
Lemma generate_lines (c : ConfigRecord) (text : string) :
  single_line c = true → generate c = Ok text →
  split_lines text = header_lines ++ flat_map (field_lines c) field_order.
Proof.
  intros Hc. rewrite generate_spec. destruct (direct_is_empty c); [done |].
  intros ->%Ok_inj. rewrite split_lines_more_lines; [done .. |].
  cbn [app forallb]. apply (single_line_fields c field_order Hc).
Qed.

(** ** Where the block of a field stands in the text *)

Lemma field_order_split (f : field) :
  ∃ front back, field_order = front ++ f :: back ∧ (f ∉ front) ∧ (f ∉ back).
Proof.
  unfold field_order.
  destruct f;
    [ exists [] | exists [F_diode_direction]
    | exists [F_diode_direction; F_keyboard_name]
    | exists [F_diode_direction; F_keyboard_name; F_manufacturer]
    | exists [F_diode_direction; F_keyboard_name; F_manufacturer; F_direct]
    | exists [F_diode_direction; F_keyboard_name; F_manufacturer; F_direct; F_cols]
    | exists [F_diode_direction; F_keyboard_name; F_manufacturer; F_direct; F_cols;
              F_rows]
    | exists [F_diode_direction; F_keyboard_name; F_manufacturer; F_direct; F_cols;
              F_rows; F_vid]
    | exists [F_diode_direction; F_keyboard_name; F_manufacturer; F_direct; F_cols;
              F_rows; F_vid; F_pid] ];
    eexists; (split; [reflexivity |]);
    split; rewrite ?not_elem_of_cons; repeat split; (done || apply not_elem_of_nil).
Qed.

Lemma flat_map_agree {A B : Type} (g h : A → list B) (xs : list A) :
  (∀ x, x ∈ xs → g x = h x) → flat_map g xs = flat_map h xs.
Proof.
  induction xs as [|x xs IH]; simpl; intros H; [done |].
  rewrite (H x) by apply list_elem_of_here.
  rewrite IH; [done |]. intros y Hy. apply H. by apply list_elem_of_further.
Qed.

(** The text of a record, cut around the blocks of the fields [mid]. *)
Lemma generate_around (c : ConfigRecord) (front mid back : list field) :
  field_order = front ++ mid ++ back →
  direct_is_empty c = false →
  generate c =
  Ok ((generated_comment +:+
       more_lines ([""; "#pragma once"] ++ flat_map (field_lines c) front))
      +:+ more_lines (flat_map (field_lines c) mid)
      +:+ more_lines (flat_map (field_lines c) back)).
Proof.
  intros Horder Hne. rewrite generate_spec, Hne, Horder. f_equal.
  by rewrite !flat_map_app, !more_lines_app, !append_assoc.
Qed.

Lemma generate_has_field (c : ConfigRecord) (f : field) (text : string) :
  generate c = Ok text → has_lines text (field_lines c f).
Proof.
  destruct (field_order_split f) as (front & back & Horder & _ & _).
  destruct (direct_is_empty c) eqn:Hne.
  { rewrite generate_spec, Hne. done. }
  rewrite (generate_around c front [f] back Horder Hne).
  intros ->%Ok_inj. cbn [flat_map]. rewrite app_nil_r. by eexists _, _.
Qed.

Lemma generate_matrix_blocks (c : ConfigRecord) :
  direct_is_empty c = false →
  ∃ before after,
    generate c = Ok (before
                     +:+ more_lines (field_lines c F_direct)
                     +:+ more_lines (field_lines c F_cols)
                     +:+ more_lines (field_lines c F_rows)
                     +:+ after).
Proof.
  intros Hne.
  rewrite (generate_around c
             [F_diode_direction; F_keyboard_name; F_manufacturer]
             [F_direct; F_cols; F_rows]
             [F_vid; F_pid; F_device_ver] eq_refl Hne).
  eexists _, (more_lines (flat_map (field_lines c) [F_vid; F_pid; F_device_ver])).
  do 2 f_equal. cbn [flat_map].
  by rewrite app_nil_r, !more_lines_app, !append_assoc.
Qed.

(** ** Removing a field *)

Lemma field_lines_removed (c : ConfigRecord) (f : field) :
  field_lines (remove_field f c) f = [].
Proof.
  destruct c as [dd kn mf [[d cs rs]|] [usb|]], f; try done;
    unfold field_lines, usb_of; simpl; by rewrite lookup_delete_eq.
Qed.

Lemma field_lines_kept (c : ConfigRecord) (f g : field) :
  g ≠ f → field_lines (remove_field f c) g = field_lines c g.
Proof.
  intros Hgf.
  destruct c as [dd kn mf [[d cs rs]|] [usb|]], f, g; try done;
    unfold field_lines, usb_of; simpl; by rewrite lookup_delete_ne.
Qed.

Lemma direct_is_empty_removed (c : ConfigRecord) (f : field) :
  direct_is_empty c = false → direct_is_empty (remove_field f c) = false.
Proof. by destruct c as [dd kn mf [[d cs rs]|] usb], f. Qed.

Lemma field_present_lines (c : ConfigRecord) (f : field) :
  field_present c f = true → direct_is_empty c = false → field_lines c f ≠ [].
Proof.
  unfold direct_is_empty.
  destruct f; simpl; intros [v Hv]%bool_decide_eq_true; rewrite Hv; try done.
  destruct v; done.
Qed.

Lemma key_order_split (k : key) :
  ∃ front back,
    field_order = front ++ key_fields k ++ back
    ∧ Forall (λ g, g ∉ key_fields k) front
    ∧ Forall (λ g, g ∉ key_fields k) back.
Proof.
  unfold field_order.
  destruct k as [f| |];
    [ destruct f;
      [ exists [] | exists [F_diode_direction]
      | exists [F_diode_direction; F_keyboard_name]
      | exists [F_diode_direction; F_keyboard_name; F_manufacturer]
      | exists [F_diode_direction; F_keyboard_name; F_manufacturer; F_direct]
      | exists [F_diode_direction; F_keyboard_name; F_manufacturer; F_direct; F_cols]
      | exists [F_diode_direction; F_keyboard_name; F_manufacturer; F_direct; F_cols;
                F_rows]
      | exists [F_diode_direction; F_keyboard_name; F_manufacturer; F_direct; F_cols;
                F_rows; F_vid]
      | exists [F_diode_direction; F_keyboard_name; F_manufacturer; F_direct; F_cols;
                F_rows; F_vid; F_pid] ]
    | exists [F_diode_direction; F_keyboard_name; F_manufacturer]
    | exists [F_diode_direction; F_keyboard_name; F_manufacturer; F_direct; F_cols;
              F_rows] ];
    eexists; (split; [reflexivity |]);
    split; apply (bool_decide_unpack _); vm_compute; exact I.
Qed.

Lemma key_lines_removed (c : ConfigRecord) (k : key) (g : field) :
  g ∈ key_fields k → field_lines (remove_key k c) g = [].
Proof.
  destruct k as [f| |]; cbn [key_fields remove_key].
  - intros ->%list_elem_of_singleton. apply field_lines_removed.
  - intros Hg. destruct g; try done; exfalso; revert Hg;
      apply (bool_decide_unpack _); vm_compute; exact I.
  - intros Hg. destruct g; try done; exfalso; revert Hg;
      apply (bool_decide_unpack _); vm_compute; exact I.
Qed.

Lemma key_lines_kept (c : ConfigRecord) (k : key) (g : field) :
  g ∉ key_fields k → field_lines (remove_key k c) g = field_lines c g.
Proof.
  destruct k as [f| |]; cbn [key_fields remove_key].
  - intros Hg. apply field_lines_kept. intros ->. apply Hg, list_elem_of_here.
  - intros Hg. destruct g; try done; exfalso; apply Hg;
      apply (bool_decide_unpack _); vm_compute; exact I.
  - intros Hg. destruct g; try done; exfalso; apply Hg;
      apply (bool_decide_unpack _); vm_compute; exact I.
Qed.

Lemma direct_is_empty_remove_key (c : ConfigRecord) (k : key) :
  direct_is_empty c = false → direct_is_empty (remove_key k c) = false.
Proof.
  destruct k as [f| |]; [apply direct_is_empty_removed | done |].
  by destruct c as [dd kn mf [[d cs rs]|] usb].
Qed.

Lemma field_fragments_lines (c c' : ConfigRecord) (f : field) :
  field_lines c' f = field_lines c f → field_fragments c' f = field_fragments c f.
Proof. unfold field_fragments. by intros ->. Qed.

Lemma flat_map_constant_nil {A B : Type} (xs : list A) :
  flat_map (λ _ : A, @nil B) xs = [].
Proof. by induction xs. Qed.

Lemma same_lookups_lines (c c' : ConfigRecord) (f : field) :
  same_lookups c c' → field_lines c' f = field_lines c f.
Proof.
  intros (Hdd & Hkn & Hmf & Hd & Hcs & Hrs & Husb).
  apply Forall_cons in Husb as [Hvid Husb].
  apply Forall_cons in Husb as [Hpid Husb].
  apply Forall_cons in Husb as [Hver _].
  cbn [fst] in Hvid, Hpid, Hver.
  destruct f; unfold field_lines; congruence.
Qed.

Lemma generate_empty_direct (c : ConfigRecord) :
  direct_is_empty c = true → generate c = Raise IndexError.
Proof. intros H. by rewrite generate_spec, H. Qed.

Lemma direct_first_row (c : ConfigRecord) (grid : list (list (option string)))
    (row0 : list (option string)) :
  direct_of c = Some grid → grid !! 0%nat = Some row0 → direct_is_empty c = false.
Proof. unfold direct_is_empty. intros -> H. by destruct grid. Qed.

Lemma generate_total (c : ConfigRecord) :
  direct_is_empty c = false → ∃ text, generate c = Ok text.
Proof. intros H. rewrite generate_spec, H. by eexists. Qed.

Lemma count_line_app (l : string) (xs ys : list string) :
  count_line l (xs ++ ys) = (count_line l xs + count_line l ys)%nat.
Proof. unfold count_line. by rewrite List.filter_app, length_app. Qed.

(** Count the guards of one macro in the lines of a record in which the
    fields named by the hypotheses are present; the other fields are taken
    present or absent in turn. *)
Ltac count_guards c :=
  unfold field_order, header_lines; cbn [flat_map];
  rewrite !count_line_app;
  unfold field_lines, block_of;
  repeat match goal with
         | H : ?o = Some _ |- context [match ?o with Some _ => _ | None => _ end] =>
             rewrite H
         end;
  destruct (info_diode_direction c), (info_keyboard_name c), (info_manufacturer c);
  repeat match goal with
         | |- context [match ?o with Some _ => _ | None => _ end] => destruct o
         end;
  reflexivity.

Lemma count_matrix_cols (c : ConfigRecord) (grid : list (list (option string)))
    (row0 : list (option string)) (pins : list string) :
  direct_of c = Some grid → grid !! 0%nat = Some row0 → cols_of c = Some pins →
  count_line "#ifndef MATRIX_COLS"
    (header_lines ++ flat_map (field_lines c) field_order) = 2%nat.
Proof. intros Hdirect Hrow0 Hcols. count_guards c. Qed.

Lemma count_matrix_rows (c : ConfigRecord) (grid : list (list (option string)))
    (row0 : list (option string)) (pins : list string) :
  direct_of c = Some grid → grid !! 0%nat = Some row0 → rows_of c = Some pins →
  count_line "#ifndef MATRIX_ROWS"
    (header_lines ++ flat_map (field_lines c) field_order) = 2%nat.
Proof. intros Hdirect Hrow0 Hrows. count_guards c. Qed.

(** ** The scenarios of the specification *)

Example scenario_B_text :
  generate scenario_B = Ok
"/* This file was generated by `qmk generate-config-h`. Do not edit or copy. */

#pragma once

#ifndef MATRIX_COLS
#    define MATRIX_COLS 2
#endif // MATRIX_COLS

#ifndef MATRIX_COL_PINS
#    define MATRIX_COL_PINS {A0,A1}
#endif // MATRIX_COL_PINS


#ifndef MATRIX_ROWS
#    define MATRIX_ROWS 1
#endif // MATRIX_ROWS

#ifndef MATRIX_ROW_PINS
#    define MATRIX_ROW_PINS {B0}
#endif // MATRIX_ROW_PINS
".
Proof. reflexivity. Qed.

Example scenario_C_text :
  generate scenario_C = Ok
"/* This file was generated by `qmk generate-config-h`. Do not edit or copy. */

#pragma once

#ifndef MATRIX_COLS
#    define MATRIX_COLS 2
#endif // MATRIX_COLS

#ifndef MATRIX_ROWS
#    define MATRIX_ROWS 2
#endif // MATRIX_ROWS

#ifndef DIRECT_PINS
#    define DIRECT_PINS {{A0,A1},{NO_PIN,B1}}
#endif // DIRECT_PINS
".
Proof. reflexivity. Qed.

(** ** Claims *)

(** C1, as the claim states it, fails: a value with a line feed in it brings
    its own lines into the text.  With the manufacturer
    [ACME\n#define DEBUG 1] the text has the line [#define DEBUG 1] after the
    definition of [MANUFACTURER], with no [#ifndef DEBUG] before it. *)
Lemma injected_define_unguarded :
  generate injected_record = Ok injected_text ∧ guarded injected_text = false.
Proof. split; reflexivity. Qed.

(** C1, as the code has it.  When no value of the record contains a line feed,
    every [#define] line of the generated text is immediately preceded by the
    [#ifndef NAME] line of the macro it defines and immediately followed by
    its [#endif // NAME] line: the text holds no unguarded [#define]. *)
Theorem defines_are_guarded (c : ConfigRecord) (text : string) :
  single_line c = true → generate c = Ok text → guarded text = true.
Proof.
  intros Hc Hgen. unfold guarded. rewrite (generate_lines c text Hc Hgen).
  apply settled_header, settled_fields.
Qed.

Lemma defines_are_guarded_witness :
  ∃ text, single_line full_record = true
          ∧ generate full_record = Ok text
          ∧ guarded text = true.
Proof.
  eexists. split; [reflexivity |]. split; [reflexivity |].
  apply (defines_are_guarded full_record); reflexivity.
Defined.

(** C2, as the claim states it, fails: with an empty [matrix_pins.direct] the
    command reports nothing.  No error is logged and the call does not return
    [False]; it ends in the [IndexError] of [direct_pins[0]]. *)
Lemma empty_direct_not_reported :
  let run := generate_config_h (λ _, true) (λ _, empty_direct_record) (λ _, false)
               sample_cli in
  existsb is_report run.1 = false
  ∧ existsb is_output run.1 = false
  ∧ run.2 = Raised IndexError.
Proof. repeat split. Qed.

(** C2, as the code has it.  When the keyboard is valid and its
    [matrix_pins.direct] is present but empty, the command ends in an
    [IndexError] that nothing catches, before it has logged, written or
    printed anything: no header output is produced, and no configuration
    error is reported. *)
Theorem empty_direct_aborts (is_keyboard : string → bool)
    (info_json : string → ConfigRecord) (output_exists : path → bool)
    (cli : cli_state) (keyboard : string) :
  config_keyboard cli = Some keyboard →
  keyboard ≠ "" →
  is_keyboard keyboard = true →
  direct_of (info_json keyboard) = Some [] →
  generate_config_h is_keyboard info_json output_exists cli = ([], Raised IndexError).
Proof.
  intros Hkb Hne Hvalid Hdirect. unfold generate_config_h.
  rewrite Hkb. destruct keyboard as [|a keyboard]; [done |].
  rewrite Hvalid. cbn [negb].
  rewrite generate_empty_direct; [done |].
  unfold direct_is_empty. by rewrite Hdirect.
Qed.

Lemma empty_direct_aborts_witness :
  generate_config_h (λ _, true) (λ _, empty_direct_record) (λ _, false) sample_cli
  = ([], Raised IndexError).
Proof.
  apply (empty_direct_aborts _ _ _ sample_cli "planck");
    [reflexivity | discriminate | reflexivity | reflexivity].
Defined.

(** C3, as the claim states it, fails: on a record whose
    [matrix_pins.direct] is an empty sequence the generator raises
    [IndexError] and returns no text. *)
Lemma empty_direct_raises : generate empty_direct_record = Raise IndexError.
Proof. reflexivity. Qed.

(** C3, as the code has it.  On every record whose [matrix_pins.direct] is
    absent or has at least one row, the generator returns a header text; and
    the command, given a valid keyboard with that record, runs to its end
    (it returns [None], no exception) and hands the text to the output sink. *)
Theorem generate_returns (c : ConfigRecord) :
  direct_is_empty c = false →
  ∃ text, generate c = Ok text
    ∧ ∀ (is_keyboard : string → bool) (info_json : string → ConfigRecord)
        (output_exists : path → bool) (cli : cli_state) (keyboard : string),
        config_keyboard cli = Some keyboard → keyboard ≠ "" →
        is_keyboard keyboard = true → info_json keyboard = c →
        let run := generate_config_h is_keyboard info_json output_exists cli in
        run.2 = Returned None ∧ existsb is_output run.1 = true.
Proof.
  intros Hne. destruct (generate_total c Hne) as [text Htext].
  exists text. split; [exact Htext |].
  intros is_keyboard info_json output_exists cli keyboard Hkb Hname Hvalid Hjson.
  unfold generate_config_h. rewrite Hkb.
  destruct keyboard as [|a keyboard]; [done |].
  rewrite Hvalid, Hjson, Htext. cbn [negb].
  destruct (args_output cli) as [output|]; [| done].
  split; [done |].
  destruct (output_exists output), (args_quiet cli); reflexivity.
Qed.

Lemma generate_returns_witness :
  ∃ text, generate full_record = Ok text
    ∧ generate_config_h (λ _, true) (λ _, full_record) (λ _, false) sample_cli
      = ([Print text], Returned None).
Proof.
  destruct (generate_returns full_record eq_refl) as (text & Htext & _).
  exists text. split; [exact Htext |].
  unfold generate_config_h. cbn [sample_cli config_keyboard args_output negb].
  by rewrite Htext.
Defined.

(** C4.  When [matrix_pins.direct] is present (and has a first row), the text
    holds the block that defines [MATRIX_COLS] as the length of the first row,
    [MATRIX_ROWS] as the number of rows and [DIRECT_PINS] as the brace-enclosed
    list of the rows, each a brace-enclosed comma list of its cells, with
    [NO_PIN] for an empty or absent cell. *)
Theorem direct_block (c : ConfigRecord) (grid : list (list (option string)))
    (row0 : list (option string)) :
  direct_of c = Some grid → grid !! 0%nat = Some row0 →
  ∃ text, generate c = Ok text
    ∧ has_lines text
        ("" :: guard_block "    " "MATRIX_COLS" (str_of_nat (length row0)) ++
         "" :: guard_block "    " "MATRIX_ROWS" (str_of_nat (length grid)) ++
         "" :: guard_block "    " "DIRECT_PINS" (render_grid grid) ++ [""]).
Proof.
  intros Hdirect Hrow0.
  destruct (generate_total c (direct_first_row c grid row0 Hdirect Hrow0)) as [text Htext].
  exists text. split; [done |].
  pose proof (generate_has_field c F_direct text Htext) as H.
  unfold field_lines, block_of in H. by rewrite Hdirect, Hrow0 in H.
Qed.

Lemma direct_block_witness :
  ∃ text, generate scenario_C = Ok text
    ∧ has_lines text
        [""; "#ifndef MATRIX_COLS"; "#    define MATRIX_COLS 2"; "#endif // MATRIX_COLS";
         ""; "#ifndef MATRIX_ROWS"; "#    define MATRIX_ROWS 2"; "#endif // MATRIX_ROWS";
         ""; "#ifndef DIRECT_PINS"; "#    define DIRECT_PINS {{A0,A1},{NO_PIN,B1}}";
         "#endif // DIRECT_PINS"; ""].
Proof.
  apply (direct_block scenario_C
           [[Some "A0"; Some "A1"]; [Some ""; Some "B1"]] [Some "A0"; Some "A1"]);
    reflexivity.
Defined.

(** C5.  The list that is joined into the text is the three header entries
    followed by the entries of the fields in the fixed order: diode direction,
    keyboard name, manufacturer, direct, cols, rows, vid, pid, device_ver
    (an empty direct grid raises before the list is joined).  The text is a
    function of what the record holds under these nine keys: two records with
    the same lookups, however their keys are ordered, have the same text. *)
Theorem blocks_in_fixed_order (c : ConfigRecord) :
  field_order = [F_diode_direction; F_keyboard_name; F_manufacturer;
                 F_direct; F_cols; F_rows; F_vid; F_pid; F_device_ver]
  ∧ config_h_lines c =
      (if direct_is_empty c then Raise IndexError
       else Ok (header_lines ++ flat_map (field_fragments c) field_order))
  ∧ generate c =
      (if direct_is_empty c then Raise IndexError
       else Ok (join nl (header_lines ++ flat_map (field_lines c) field_order)))
  ∧ ∀ c', same_lookups c c' → generate c' = generate c.
Proof.
  split; [reflexivity |]. split; [apply config_h_lines_spec |]. split.
  - rewrite generate_spec. destruct (direct_is_empty c); [done |].
    unfold header_lines. cbn [app]. by rewrite join_cons.
  - intros c' Hsame. rewrite !generate_spec.
    assert (direct_is_empty c' = direct_is_empty c) as ->.
    { unfold direct_is_empty. by destruct Hsame as (_ & _ & _ & -> & _). }
    destruct (direct_is_empty c); [done |]. do 4 f_equal.
    apply flat_map_agree. intros f _. by apply same_lookups_lines.
Qed.

Lemma blocks_in_fixed_order_witness :
  same_lookups full_record reordered_record
  ∧ generate reordered_record = Ok full_text.
Proof.
  assert (same_lookups full_record reordered_record) as Hsame.
  { repeat split. repeat constructor. }
  split; [exact Hsame |].
  destruct (blocks_in_fixed_order full_record) as (_ & _ & _ & Hlookups).
  rewrite (Hlookups reordered_record Hsame). reflexivity.
Defined.

(** C6.  Take a key that is present (one of the nine fields, or the
    [matrix_pins] or [usb] sub-record as a whole) in a record that has a text.
    That text is [before ++ blocks ++ after], with [blocks] the lines of the
    fields of the key, each begun by a line feed, and the text of the record
    without the key is [before ++ after].  The fields of the key have no entry
    left and every other field has the entries it had; a field that is present
    has a block that is not empty. *)
Theorem field_independence (c : ConfigRecord) (k : key) (text : string) :
  key_present c k = true → generate c = Ok text →
  (∀ f, k = K_field f → field_lines c f ≠ [])
  ∧ (∀ g, g ∈ key_fields k → field_fragments (remove_key k c) g = [])
  ∧ (∀ g, g ∉ key_fields k → field_fragments (remove_key k c) g = field_fragments c g)
  ∧ ∃ before after,
      text = before +:+ more_lines (flat_map (field_lines c) (key_fields k)) +:+ after
      ∧ generate (remove_key k c) = Ok (before +:+ after).
Proof.
  intros Hpresent Htext.
  destruct (direct_is_empty c) eqn:Hne.
  { by rewrite generate_spec, Hne in Htext. }
  split.
  { intros f ->. by apply field_present_lines. }
  split.
  { intros g Hg. unfold field_fragments. rewrite key_lines_removed by done.
    by destruct (is_usb_field g). }
  split.
  { intros g Hg. by apply field_fragments_lines, key_lines_kept. }
  destruct (key_order_split k) as (front & back & Horder & Hfront & Hback).
  rewrite (generate_around c front (key_fields k) back Horder Hne) in Htext.
  apply Ok_inj in Htext as ->.
  eexists _, _. split; [reflexivity |].
  rewrite (generate_around _ front (key_fields k) back Horder
             (direct_is_empty_remove_key c k Hne)).
  rewrite (flat_map_agree (field_lines (remove_key k c)) (λ _, []) (key_fields k))
    by (intros g Hg; by apply key_lines_removed).
  rewrite flat_map_constant_nil. cbn [more_lines foldr String.append].
  rewrite Forall_forall in Hfront, Hback.
  do 3 f_equal.
  - do 2 f_equal. apply flat_map_agree. intros g Hg. by apply key_lines_kept, Hfront.
  - apply flat_map_agree. intros g Hg. by apply key_lines_kept, Hback.
Qed.

Lemma field_independence_witness :
  (∃ before after,
     full_text = before +:+ more_lines (field_lines full_record F_cols) +:+ after
     ∧ generate (remove_field F_cols full_record) = Ok (before +:+ after))
  ∧ (∃ before after,
       full_text = before
                   +:+ more_lines (field_lines full_record F_vid
                                   ++ field_lines full_record F_pid
                                   ++ field_lines full_record F_device_ver)
                   +:+ after
       ∧ generate (remove_key K_usb full_record) = Ok (before +:+ after)).
Proof.
  split.
  - destruct (field_independence full_record (K_field F_cols) full_text eq_refl eq_refl)
      as (_ & _ & _ & before & after & Htext & Hremoved).
    exists before, after. split; [| exact Hremoved].
    rewrite Htext. cbn [key_fields flat_map]. by rewrite app_nil_r.
  - destruct (field_independence full_record K_usb full_text eq_refl eq_refl)
      as (_ & _ & _ & before & after & Htext & Hremoved).
    exists before, after. split; [| exact Hremoved].
    rewrite Htext. cbn [key_fields flat_map]. by rewrite app_nil_r.
Defined.

(** C7.  When [matrix_pins.cols] is present, the text holds the block that
    defines [MATRIX_COLS] as the number of pins and [MATRIX_COL_PINS] as the
    brace-enclosed comma list of the pins; likewise [MATRIX_ROWS] and
    [MATRIX_ROW_PINS] for [matrix_pins.rows]. *)
Theorem col_and_row_blocks (c : ConfigRecord) (text : string) :
  generate c = Ok text →
  (∀ pins, cols_of c = Some pins →
     has_lines text
       ("" :: guard_block "    " "MATRIX_COLS" (str_of_nat (length pins)) ++
        "" :: guard_block "    " "MATRIX_COL_PINS" ("{" +:+ join "," pins +:+ "}") ++ [""]))
  ∧ (∀ pins, rows_of c = Some pins →
     has_lines text
       ("" :: guard_block "    " "MATRIX_ROWS" (str_of_nat (length pins)) ++
        "" :: guard_block "    " "MATRIX_ROW_PINS" ("{" +:+ join "," pins +:+ "}") ++ [""])).
Proof.
  intros Htext. split; intros pins Hpins.
  - pose proof (generate_has_field c F_cols text Htext) as H.
    unfold field_lines, block_of in H. by rewrite Hpins in H.
  - pose proof (generate_has_field c F_rows text Htext) as H.
    unfold field_lines, block_of in H. by rewrite Hpins in H.
Qed.

Lemma col_and_row_blocks_witness :
  ∃ text, generate scenario_B = Ok text
    ∧ has_lines text
        [""; "#ifndef MATRIX_COLS"; "#    define MATRIX_COLS 2"; "#endif // MATRIX_COLS";
         ""; "#ifndef MATRIX_COL_PINS"; "#    define MATRIX_COL_PINS {A0,A1}";
         "#endif // MATRIX_COL_PINS"; ""]
    ∧ has_lines text
        [""; "#ifndef MATRIX_ROWS"; "#    define MATRIX_ROWS 1"; "#endif // MATRIX_ROWS";
         ""; "#ifndef MATRIX_ROW_PINS"; "#    define MATRIX_ROW_PINS {B0}";
         "#endif // MATRIX_ROW_PINS"; ""].
Proof.
  eexists. split; [reflexivity |].
  destruct (col_and_row_blocks scenario_B _ eq_refl) as [Hcols Hrows].
  split; [exact (Hcols ["A0"; "A1"] eq_refl) | exact (Hrows ["B0"] eq_refl)].
Defined.

(** C8, as the claim states it, fails: the first line is not the literal of
    the specification; the comment of the code names the command. *)
Lemma first_line_not_spec_literal :
  ∃ text, generate empty_record = Ok text
    ∧ first_line text
      ≠ "/* This file was generated by the config generator. Do not edit or copy. */".
Proof. eexists. split; [reflexivity |]. discriminate. Qed.

(** C8, as the code has it.  The first line of every generated text is the
    fixed comment that names the command. *)
Theorem first_line_is_comment (c : ConfigRecord) (text : string) :
  generate c = Ok text →
  first_line text
  = "/* This file was generated by `qmk generate-config-h`. Do not edit or copy. */".
Proof.
  rewrite generate_spec. destruct (direct_is_empty c); [done |].
  intros ->%Ok_inj. unfold first_line.
  change (more_lines ([""; "#pragma once"] ++ flat_map (field_lines c) field_order))
    with (String LF ("" +:+ more_lines ("#pragma once" :: flat_map (field_lines c) field_order))).
  by rewrite split_lines_line.
Qed.

Lemma first_line_is_comment_witness :
  ∃ text, generate full_record = Ok text
    ∧ first_line text
      = "/* This file was generated by `qmk generate-config-h`. Do not edit or copy. */".
Proof.
  eexists. split; [reflexivity |].
  apply (first_line_is_comment full_record). reflexivity.
Defined.

(** C9.  The text of the record with no key is the comment line and the
    [#pragma once] line, with the blank line of the header between them, and
    nothing else. *)
Theorem empty_record_header :
  generate empty_record = Ok
"/* This file was generated by `qmk generate-config-h`. Do not edit or copy. */

#pragma once"
  ∧ config_h_lines empty_record = Ok [generated_comment; ""; "#pragma once"]
  ∧ flat_map (field_fragments empty_record) field_order = [].
Proof. repeat split. Qed.

(** C10.  When [matrix_pins] has a direct grid (with a first row), the text
    holds the guarded definition of [MATRIX_COLS] twice if [cols] is present
    too, first with the length of the first row of the grid and then with the
    number of column pins; and the guarded definition of [MATRIX_ROWS] twice
    if [rows] is present too, first with the number of rows of the grid and
    then with the number of row pins.  Nothing is left out or merged: when no
    value contains a line feed, the text has exactly two [#ifndef MATRIX_COLS]
    (respectively [#ifndef MATRIX_ROWS]) lines. *)
Theorem matrix_counts_twice (c : ConfigRecord) (grid : list (list (option string)))
    (row0 : list (option string)) :
  direct_of c = Some grid → grid !! 0%nat = Some row0 →
  ∃ text, generate c = Ok text
    ∧ (∀ pins, cols_of c = Some pins →
         (∃ before between after,
            text = before
                   +:+ more_lines ("" :: guard_block "    " "MATRIX_COLS"
                                           (str_of_nat (length row0)))
                   +:+ between
                   +:+ more_lines ("" :: guard_block "    " "MATRIX_COLS"
                                           (str_of_nat (length pins)))
                   +:+ after)
         ∧ (single_line c = true →
            count_line "#ifndef MATRIX_COLS" (split_lines text) = 2%nat))
    ∧ (∀ pins, rows_of c = Some pins →
         (∃ before between after,
            text = before
                   +:+ more_lines ("" :: guard_block "    " "MATRIX_ROWS"
                                           (str_of_nat (length grid)))
                   +:+ between
                   +:+ more_lines ("" :: guard_block "    " "MATRIX_ROWS"
                                           (str_of_nat (length pins)))
                   +:+ after)
         ∧ (single_line c = true →
            count_line "#ifndef MATRIX_ROWS" (split_lines text) = 2%nat)).
Proof.
  intros Hdirect Hrow0.
  destruct (generate_matrix_blocks c (direct_first_row c grid row0 Hdirect Hrow0))
    as (before & after & Htext).
  eexists. split; [exact Htext |].
  split; intros pins Hpins; (split; [| intros Hc]).
  - unfold field_lines, block_of. rewrite Hdirect, Hrow0, Hpins.
    exists before.
    exists (more_lines ("" :: guard_block "    " "MATRIX_ROWS" (str_of_nat (length grid)) ++
                        "" :: guard_block "    " "DIRECT_PINS" (render_grid grid) ++ [""])).
    exists (more_lines ("" :: guard_block "    " "MATRIX_COL_PINS" (braces pins) ++ [""])
            +:+ more_lines (block_of (rows_of c) (λ pins,
                  "" :: guard_block "    " "MATRIX_ROWS" (str_of_nat (length pins)) ++
                  "" :: guard_block "    " "MATRIX_ROW_PINS" (braces pins) ++ [""]))
            +:+ after).
    rewrite !app_comm_cons, !more_lines_app, !append_assoc. reflexivity.
  - rewrite (generate_lines c _ Hc Htext).
    by apply (count_matrix_cols c grid row0 pins).
  - unfold field_lines, block_of. rewrite Hdirect, Hrow0, Hpins.
    exists (before +:+ more_lines ("" :: guard_block "    " "MATRIX_COLS"
                                           (str_of_nat (length row0)))).
    exists (more_lines ("" :: guard_block "    " "DIRECT_PINS" (render_grid grid) ++ [""])
            +:+ more_lines (block_of (cols_of c) (λ pins,
                  "" :: guard_block "    " "MATRIX_COLS" (str_of_nat (length pins)) ++
                  "" :: guard_block "    " "MATRIX_COL_PINS" (braces pins) ++ [""]))).
    exists (more_lines ("" :: guard_block "    " "MATRIX_ROW_PINS" (braces pins) ++ [""])
            +:+ after).
    rewrite !app_comm_cons, !more_lines_app, !append_assoc. reflexivity.
  - rewrite (generate_lines c _ Hc Htext).
    by apply (count_matrix_rows c grid row0 pins).
Qed.

Lemma matrix_counts_twice_witness :
  (∃ before between after,
     full_text = before
                 +:+ more_lines [""; "#ifndef MATRIX_COLS"; "#    define MATRIX_COLS 2";
                                 "#endif // MATRIX_COLS"]
                 +:+ between
                 +:+ more_lines [""; "#ifndef MATRIX_COLS"; "#    define MATRIX_COLS 3";
                                 "#endif // MATRIX_COLS"]
                 +:+ after)
  ∧ count_line "#ifndef MATRIX_COLS" (split_lines full_text) = 2%nat
  ∧ (∃ before between after,
       full_text = before
                   +:+ more_lines [""; "#ifndef MATRIX_ROWS"; "#    define MATRIX_ROWS 2";
                                   "#endif // MATRIX_ROWS"]
                   +:+ between
                   +:+ more_lines [""; "#ifndef MATRIX_ROWS"; "#    define MATRIX_ROWS 1";
                                   "#endif // MATRIX_ROWS"]
                   +:+ after)
  ∧ count_line "#ifndef MATRIX_ROWS" (split_lines full_text) = 2%nat.
Proof.
  destruct (matrix_counts_twice full_record
              [[Some "A0"; None]; [Some "B0"; Some "B1"]] [Some "A0"; None]
              eq_refl eq_refl) as (text & Htext & Hcols & Hrows).
  assert (text = full_text) as Heq.
  { apply (Ok_inj full_text text). rewrite <- Htext. reflexivity. }
  rewrite <- Heq.
  destruct (Hcols ["C0"; "C1"; "C2"] eq_refl) as [H1 H2].
  destruct (Hrows ["D0"] eq_refl) as [H3 H4].
  repeat split; [exact H1 | exact (H2 eq_refl) | exact H3 | exact (H4 eq_refl)].
Defined.

(** * Further properties of the code *)

(** ** The command *)

Lemma run_missing (is_keyboard : string → bool) (info_json : string → ConfigRecord)
    (output_exists : path → bool) (cli : cli_state) :
  keyboard_given cli = None →
  generate_config_h is_keyboard info_json output_exists cli
  = ([LogError "Missing paramater: --keyboard"; PrintHelp], Returned (Some false)).
Proof.
  unfold keyboard_given, generate_config_h.
  by destruct (config_keyboard cli) as [[|a s]|].
Qed.

Lemma run_given (is_keyboard : string → bool) (info_json : string → ConfigRecord)
    (output_exists : path → bool) (cli : cli_state)
    (keyboard : string) :
  keyboard_given cli = Some keyboard →
  generate_config_h is_keyboard info_json output_exists cli =
  if negb (is_keyboard keyboard) then
    ([LogError ("Invalid keyboard: " +:+ dquote +:+ keyboard +:+ dquote)],
     Returned (Some false))
  else
    match generate (info_json keyboard) with
    | Raise e => ([], Raised e)
    | Ok config_h =>
        match args_output cli with
        | Some output =>
            ([Mkdir (path_parent output)]
             ++ (if output_exists output
                 then [Replace output (path_name output +:+ ".bak")] else [])
             ++ [WriteText output config_h]
             ++ (if args_quiet cli then []
                 else [LogInfo ("Wrote info_config.h to " +:+ path_str output +:+ ".")]),
             Returned None)
        | None => ([Print config_h], Returned None)
        end
    end.
Proof.
  unfold keyboard_given, generate_config_h.
  destruct (config_keyboard cli) as [[|a s]|]; [done | | done].
  by intros [= <-].
Qed.

(** X1.  The command hands header text to the output sink exactly when the
    keyboard name is given, names a keyboard, and the generator returns a text
    for it; it then does so once, with that text. *)
Theorem output_iff_generated (is_keyboard : string → bool) (info_json : string → ConfigRecord)
    (output_exists : path → bool) (cli : cli_state) :
  let run := generate_config_h is_keyboard info_json output_exists in
  (existsb is_output (run cli).1 = true ↔
   ∃ keyboard text,
     keyboard_given cli = Some keyboard ∧ is_keyboard keyboard = true
     ∧ generate (info_json keyboard) = Ok text)
  ∧ ∀ keyboard text,
      keyboard_given cli = Some keyboard → is_keyboard keyboard = true →
      generate (info_json keyboard) = Ok text →
      List.filter is_output (run cli).1
      = [match args_output cli with
         | Some output => WriteText output text
         | None => Print text
         end].
Proof.
  intros run. subst run. split.
  - destruct (keyboard_given cli) as [keyboard|] eqn:Hkb.
    + rewrite (run_given _ _ _ cli keyboard Hkb).
      destruct (is_keyboard keyboard) eqn:Hvalid; cbn [negb].
      * destruct (generate (info_json keyboard)) as [text|e] eqn:Hgen.
        -- split; [intros _; by exists keyboard, text |]. intros _.
           destruct (args_output cli); [| done].
           by destruct (output_exists p), (args_quiet cli).
        -- split; [done |]. intros (k & t & [= <-] & _ & Ht). congruence.
      * split; [done |]. intros (k & t & [= <-] & Hk & _). congruence.
    + rewrite (run_missing _ _ _ cli Hkb). split; [done |].
      by intros (k & t & Hk & _).
  - intros keyboard text Hkb Hvalid Hgen.
    rewrite (run_given _ _ _ cli keyboard Hkb), Hvalid, Hgen. cbn [negb].
    destruct (args_output cli); [| done].
    by destruct (output_exists p), (args_quiet cli).
Qed.

(** X2.  The command returns [False] exactly when the keyboard name is
    missing or names no keyboard.  It has then logged an error, written and
    printed nothing, and never looked at the file system; what [info_json]
    would have answered plays no part. *)
Theorem failure_iff_no_keyboard (is_keyboard : string → bool) (info_json : string → ConfigRecord)
    (output_exists : path → bool) (cli : cli_state) :
  let run := generate_config_h is_keyboard info_json output_exists in
  ((run cli).2 = Returned (Some false) ↔
   keyboard_given cli = None
   ∨ ∃ keyboard, keyboard_given cli = Some keyboard ∧ is_keyboard keyboard = false)
  ∧ ((run cli).2 = Returned (Some false) →
     existsb is_report (run cli).1 = true
     ∧ existsb is_output (run cli).1 = false
     ∧ existsb is_file_event (run cli).1 = false
     ∧ ∀ info_json' output_exists',
         generate_config_h is_keyboard info_json' output_exists' cli = run cli).
Proof.
  intros run. subst run.
  destruct (keyboard_given cli) as [keyboard|] eqn:Hkb.
  - rewrite (run_given _ _ _ cli keyboard Hkb).
    destruct (is_keyboard keyboard) eqn:Hvalid; cbn [negb].
    + assert ((match generate (info_json keyboard) with
               | Ok config_h =>
                   match args_output cli with
                   | Some output =>
                       ([Mkdir (path_parent output)]
                        ++ (if output_exists output
                            then [Replace output (path_name output +:+ ".bak")] else [])
                        ++ [WriteText output config_h]
                        ++ (if args_quiet cli then []
                            else [LogInfo ("Wrote info_config.h to "
                                           +:+ path_str output +:+ ".")]),
                        Returned None)
                   | None => ([Print config_h], Returned None)
                   end
               | Raise e => ([], Raised e)
               end).2 ≠ Returned (Some false)) as Hnot.
      { destruct (generate (info_json keyboard)); [| done].
        by destruct (args_output cli). }
      split; [| done]. split; [done |].
      intros [? | (k & [= <-] & Hk)]; congruence.
    + split; [split; [intros _; right; by exists keyboard | done] |].
      intros _. repeat split.
      intros info_json' output_exists'.
      by rewrite (run_given _ _ _ cli keyboard Hkb), Hvalid.
  - rewrite (run_missing _ _ _ cli Hkb).
    split; [split; [intros _; by left | done] |].
    intros _. repeat split.
    intros info_json' output_exists'.
    by rewrite (run_missing _ _ _ cli Hkb).
Qed.

Lemma output_iff_generated_witness :
  List.filter is_output
    (generate_config_h (λ _, true) (λ _, full_record) (λ _, true) file_cli).1
  = [WriteText sample_path full_text].
Proof.
  exact (proj2 (output_iff_generated (λ _, true) (λ _, full_record) (λ _, true) file_cli)
           "planck" full_text eq_refl eq_refl eq_refl).
Defined.

Lemma failure_iff_no_keyboard_witness :
  let cli := {| config_keyboard := Some ""; args_output := Some sample_path;
                args_quiet := true |} in
  existsb is_report (generate_config_h (λ _, true) (λ _, full_record) (λ _, true) cli).1
  = true
  ∧ existsb is_file_event
      (generate_config_h (λ _, true) (λ _, full_record) (λ _, true) cli).1 = false.
Proof.
  intros cli.
  destruct (proj2 (failure_iff_no_keyboard (λ _, true) (λ _, full_record) (λ _, true) cli)
              eq_refl) as (Hreport & _ & Hfiles & _).
  by split.
Defined.

(** X3.  A file is never overwritten without a backup: whenever the command
    writes the header to a path, it has created the parent directory before,
    and, if a file was there, it has first renamed it to its name with [.bak]
    added; nothing is written or printed after that. *)
Theorem backup_precedes_write (is_keyboard : string → bool)
    (info_json : string → ConfigRecord) (output_exists : path → bool)
    (cli : cli_state) (before after : list event) (file : path) (text : string) :
  (generate_config_h is_keyboard info_json output_exists cli).1
  = before ++ WriteText file text :: after →
  args_output cli = Some file
  ∧ Mkdir (path_parent file) ∈ before
  ∧ (output_exists file = true → Replace file (path_name file +:+ ".bak") ∈ before)
  ∧ (output_exists file = false → before = [Mkdir (path_parent file)])
  ∧ existsb is_output after = false
  ∧ existsb is_file_event after = false.
Proof.
  destruct (keyboard_given cli) as [keyboard|] eqn:Hkb.
  2: { rewrite (run_missing _ _ _ cli Hkb). cbn [fst].
       destruct before as [|e1 [|e2 [|e3 before]]]; done. }
  rewrite (run_given _ _ _ cli keyboard Hkb).
  destruct (is_keyboard keyboard); cbn [negb fst].
  2: { destruct before as [|e1 [|e2 before]]; done. }
  destruct (generate (info_json keyboard)) as [config_h|e]; cbn [fst].
  2: { destruct before; done. }
  destruct (args_output cli) as [output|]; cbn [fst].
  2: { destruct before as [|e1 [|e2 before]]; done. }
  destruct (output_exists output) eqn:Hexists, (args_quiet cli); cbn [app];
    intros Heq;
    destruct before as [|e1 [|e2 [|e3 [|e4 [|e5 before]]]]]; simplify_eq/=;
    rewrite ?Hexists; repeat split; try done; try intros _;
    repeat constructor.
Qed.

Lemma backup_precedes_write_witness :
  Replace sample_path "info_config.h.bak"
  ∈ [Mkdir "build"; Replace sample_path "info_config.h.bak"].
Proof.
  destruct (backup_precedes_write (λ _, true) (λ _, full_record) (λ _, true) file_cli
              [Mkdir "build"; Replace sample_path "info_config.h.bak"]
              [LogInfo "Wrote info_config.h to build/info_config.h."]
              sample_path full_text eq_refl)
    as (_ & _ & Hbackup & _).
  exact (Hbackup eq_refl).
Defined.

(** X4.  The quiet flag silences the closing information message and nothing
    else: the run with [--quiet] is the run without it, less its [LogInfo]
    events; errors are still logged and the same text goes to the same
    place. *)
Theorem quiet_only_drops_info (is_keyboard : string → bool)
    (info_json : string → ConfigRecord) (output_exists : path → bool)
    (cli : cli_state) :
  let loud := generate_config_h is_keyboard info_json output_exists (with_quiet false cli) in
  generate_config_h is_keyboard info_json output_exists (with_quiet true cli)
  = (List.filter (λ e, negb (is_info e)) loud.1, loud.2).
Proof.
  intros loud. subst loud.
  destruct (keyboard_given cli) as [keyboard|] eqn:Hkb.
  - rewrite !(run_given _ _ _ _ keyboard) by done.
    destruct (is_keyboard keyboard); [| done]. cbn [negb].
    destruct (generate (info_json keyboard)); [| done]. cbn [with_quiet args_output args_quiet].
    destruct (args_output cli) as [output|]; [| done].
    by destruct (output_exists output).
  - by rewrite !run_missing.
Qed.

(** X5.  Without an output path the command leaves the file system alone: it
    creates no directory, renames and writes no file; the text, if there is
    one, is printed. *)
Theorem no_path_no_file_event (is_keyboard : string → bool)
    (info_json : string → ConfigRecord) (output_exists : path → bool)
    (cli : cli_state) :
  args_output cli = None →
  let run := generate_config_h is_keyboard info_json output_exists cli in
  existsb is_file_event run.1 = false
  ∧ ∀ e, e ∈ run.1 → is_output e = true → ∃ text, e = Print text.
Proof.
  intros Hnone run. subst run.
  destruct (keyboard_given cli) as [keyboard|] eqn:Hkb.
  - rewrite (run_given _ _ _ cli keyboard Hkb), Hnone.
    destruct (is_keyboard keyboard); cbn [negb].
    + destruct (generate (info_json keyboard)) as [text|err]; cbn [fst].
      * split; [done |]. intros e ->%list_elem_of_singleton _. by exists text.
      * split; [done |]. by intros e ?%not_elem_of_nil.
    + split; [done |]. by intros e ->%list_elem_of_singleton.
  - rewrite (run_missing _ _ _ cli Hkb). split; [done |]. cbn [fst].
    intros e [-> | ->%list_elem_of_singleton]%elem_of_cons; done.
Qed.

Lemma no_path_no_file_event_witness :
  existsb is_file_event
    (generate_config_h (λ _, true) (λ _, full_record) (λ _, true) sample_cli).1 = false.
Proof.
  exact (proj1 (no_path_no_file_event (λ _, true) (λ _, full_record) (λ _, true)
                  sample_cli eq_refl)).
Defined.

(** ** What the header defines *)























(** ** Lists that can be read back *)

Lemma split_on_single (sep : ascii) (s : string) :
  no_char sep s = true → split_on sep s = [s].
Proof.
  induction s as [|a s IH]; simpl; [done |].
  intros [Ha Hs]%andb_prop. apply negb_true_iff in Ha. rewrite Ha, IH; done.
Qed.

Lemma split_on_entry (sep : ascii) (s rest : string) :
  no_char sep s = true → split_on sep (s +:+ String sep rest) = s :: split_on sep rest.
Proof.
  induction s as [|a s IH]; simpl.
  - intros _. by rewrite Ascii.eqb_refl.
  - intros [Ha Hs]%andb_prop. apply negb_true_iff in Ha. rewrite Ha, IH; done.
Qed.

Lemma split_on_join (sep : ascii) (xs : list string) :
  xs ≠ [] → forallb (no_char sep) xs = true →
  split_on sep (join (String sep "") xs) = xs.
Proof.
  induction xs as [|x [|y xs] IH]; [done | |]; intros _ Hxs.
  - simpl in Hxs. rewrite andb_true_r in Hxs. by apply split_on_single.
  - apply andb_prop in Hxs as [Hx Hxs].
    change (join (String sep "") (x :: y :: xs))
      with (x +:+ String sep (join (String sep "") (y :: xs))).
    rewrite split_on_entry by done. by rewrite IH.
Qed.

Lemma drop_last_app (c : ascii) (s : string) :
  drop_last c (s +:+ String c "") = Some s.
Proof.
  induction s as [|a s IH]; simpl.
  - by rewrite Ascii.eqb_refl.
  - rewrite IH. by destruct s.
Qed.

Lemma brace_entries_braces (xs : list string) :
  xs ≠ [] → forallb (no_char ",") xs = true → brace_entries (braces xs) = Some xs.
Proof.
  intros Hne Hxs. unfold braces.
  change (brace_entries ("{" +:+ join "," xs +:+ "}"))
    with (split_on "," <$> drop_last "}" (join "," xs +:+ String "}" "")).
  rewrite drop_last_app. cbn [fmap option_fmap option_map].
  f_equal. by apply (split_on_join ","%char).
Qed.




Lemma no_comma_render_cell (cell : option string) :
  opt_all (no_char ",") cell = true → no_char "," (render_cell cell) = true.
Proof. destruct cell as [[|a s]|]; simpl; done. Qed.

Lemma render_cell_nonempty (cell : option string) : render_cell cell ≠ "".
Proof. by destruct cell as [[|a s]|]. Qed.

(** X11.  Every row of a direct grid becomes one entry of the list that
    [direct_pins] joins, at the row's own place, and that entry can be read
    back: a non-empty row whose pins hold no comma gives a brace-enclosed list
    with one entry per cell, the pin or [NO_PIN], never an empty entry. *)
Theorem direct_rows_read_back (grid : list (list (option string))) (i : nat)
    (row : list (option string)) :
  grid !! i = Some row → row ≠ [] →
  forallb (opt_all (no_char ",")) row = true →
  length (direct_pins_rows grid) = length grid
  ∧ ∃ rendered,
      direct_pins_rows grid !! i = Some rendered
      ∧ brace_entries rendered = Some ((λ col, or_else col "NO_PIN") <$> row)
      ∧ Forall (λ entry, entry ≠ "") ((λ col, or_else col "NO_PIN") <$> row).
Proof.
  intros Hrow Hne Hcells. rewrite direct_pins_rows_map.
  split; [by rewrite length_fmap |].
  exists (braces (render_cell <$> row)). split.
  { by rewrite list_lookup_fmap, Hrow. }
  assert ((λ col, or_else col "NO_PIN") <$> row = render_cell <$> row) as ->.
  { apply list_fmap_ext. intros _ cell _. apply or_else_render. }
  split.
  - apply brace_entries_braces.
    + by destruct row.
    + eapply forallb_fmap_true; [| exact Hcells]. apply no_comma_render_cell.
  - apply Forall_fmap, Forall_forall. intros cell _. apply render_cell_nonempty.
Qed.

Lemma direct_rows_read_back_witness :
  ∃ rendered,
    direct_pins_rows [[Some "A0"; Some "A1"]; [Some ""; None; Some "B2"]] !! 1%nat
    = Some rendered
    ∧ brace_entries rendered = Some ["NO_PIN"; "NO_PIN"; "B2"].
Proof.
  destruct (direct_rows_read_back
              [[Some "A0"; Some "A1"]; [Some ""; None; Some "B2"]] 1
              [Some ""; None; Some "B2"] eq_refl) as (_ & rendered & Hat & Hentries & _);
    [discriminate | reflexivity |].
  by exists rendered.
Defined.

Lemma more_lines_shape (ls : list string) :
  more_lines ls = "" ∨ ∃ rest, more_lines ls = String LF rest.
Proof. destruct ls as [|l ls]; [by left | right]. by eexists. Qed.

(** X12.  The head of the header cannot be displaced: whatever the values of
    the record hold, line feeds included, the first three lines of the text
    are the comment, a blank line and [#pragma once]. *)
Theorem header_lines_first (c : ConfigRecord) (text : string) :
  generate c = Ok text → take 3 (split_lines text) = header_lines.
Proof.
  rewrite generate_spec. destruct (direct_is_empty c); [done |].
  intros ->%Ok_inj. rewrite more_lines_app.
  change (more_lines [""; "#pragma once"])
    with (String LF ("" +:+ String LF "#pragma once")).
  change (generated_comment +:+ String LF ("" +:+ String LF "#pragma once")
          +:+ more_lines (flat_map (field_lines c) field_order))
    with (generated_comment
          +:+ String LF ("" +:+ String LF ("#pragma once"
          +:+ more_lines (flat_map (field_lines c) field_order)))).
  rewrite !split_lines_line by done.
  destruct (more_lines_shape (flat_map (field_lines c) field_order)) as [-> | [rest ->]].
  - done.
  - by rewrite split_lines_line.
Qed.

Lemma header_lines_first_witness :
  take 3 (split_lines injected_text) = header_lines.
Proof. apply (header_lines_first injected_record). reflexivity. Defined.

Lemma generate_same_lookups (c c' : ConfigRecord) :
  same_lookups c c' → generate c' = generate c.
Proof.
  intros Hsame. rewrite !generate_spec.
  assert (direct_is_empty c' = direct_is_empty c) as ->.
  { unfold direct_is_empty. by destruct Hsame as (_ & _ & _ & -> & _). }
  destruct (direct_is_empty c); [done |]. do 4 f_equal.
  apply flat_map_agree. intros f _. by apply same_lookups_lines.
Qed.

(** X13.  The loop over [usb_properties] looks at [vid], [pid] and
    [device_ver] and at nothing else: adding, changing or deleting any other
    key of the [usb] sub-record leaves the result as it is. *)
Theorem other_usb_keys_ignored (c : ConfigRecord) (usb : gmap string scalar)
    (key : string) (value : scalar) :
  info_usb c = Some usb → key ∉ usb_properties.*1 →
  generate (with_usb (<[key:=value]> usb) c) = generate c
  ∧ generate (with_usb (delete key usb) c) = generate c.
Proof.
  intros Husb Hkey. cbn [usb_properties fmap list_fmap fst] in Hkey.
  rewrite !not_elem_of_cons in Hkey. destruct Hkey as (Hvid & Hpid & Hver & _).
  split; apply generate_same_lookups; repeat split;
    unfold usb_properties; repeat constructor;
    unfold usb_of; cbn [with_usb info_usb fst mbind option_bind]; rewrite Husb;
    cbn [mbind option_bind];
    rewrite ?lookup_insert_ne, ?lookup_delete_ne by done; done.
Qed.

Lemma other_usb_keys_ignored_witness :
  generate (with_usb (<["serial":=SStr "0001"]>
                        {[ "vid" := SStr "0xFEED"; "pid" := SStr "0x6060";
                           "device_ver" := SInt 1 ]}) full_record)
  = generate full_record.
Proof.
  apply (other_usb_keys_ignored full_record _ "serial" (SStr "0001") eq_refl).
  apply (bool_decide_unpack _). vm_compute. exact I.
Defined.

(** X14.  The blocks of the fields that hold one value.  Whatever the record
    else holds, its text has: for [diode_direction] the guard of
    [DIODE_DIRECTION] (its [define] indented by three blanks); for
    [keyboard_name] the guards of [DESCRIPTION] and of [PRODUCT], both with
    the keyboard name; for [manufacturer] the guard of [MANUFACTURER]; and for
    each of [vid], [pid], [device_ver] in the [usb] sub-record the guard of
    its macro with the value as [%s] prints it. *)
Theorem scalar_blocks (c : ConfigRecord) (text : string) :
  generate c = Ok text →
  (∀ v, info_diode_direction c = Some v →
     has_lines text
       [""; "#ifndef DIODE_DIRECTION"; "#   define DIODE_DIRECTION " +:+ v;
        "#endif // DIODE_DIRECTION"; ""])
  ∧ (∀ v, info_keyboard_name c = Some v →
     has_lines text
       [""; "#ifndef DESCRIPTION"; "#    define DESCRIPTION " +:+ v;
        "#endif // DESCRIPTION";
        ""; "#ifndef PRODUCT"; "#    define PRODUCT " +:+ v; "#endif // PRODUCT"; ""])
  ∧ (∀ v, info_manufacturer c = Some v →
     has_lines text
       [""; "#ifndef MANUFACTURER"; "#    define MANUFACTURER " +:+ v;
        "#endif // MANUFACTURER"; ""])
  ∧ (∀ info_name config_name v,
       (info_name, config_name) ∈ usb_properties → usb_of c info_name = Some v →
       has_lines text
         [""; "#ifndef " +:+ config_name;
          "#    define " +:+ config_name +:+ " " +:+ py_str v;
          "#endif // " +:+ config_name]).
Proof.
  intros Htext. repeat split.
  - intros v Hv. pose proof (generate_has_field c F_diode_direction text Htext) as H.
    unfold field_lines, block_of in H. by rewrite Hv in H.
  - intros v Hv. pose proof (generate_has_field c F_keyboard_name text Htext) as H.
    unfold field_lines, block_of in H. by rewrite Hv in H.
  - intros v Hv. pose proof (generate_has_field c F_manufacturer text Htext) as H.
    unfold field_lines, block_of in H. by rewrite Hv in H.
  - intros info_name config_name v Hitem Hv. unfold usb_properties in Hitem.
    rewrite !elem_of_cons in Hitem.
    destruct Hitem as [[= -> ->] | [[= -> ->] | [[= -> ->] | Hnil]]].
    + pose proof (generate_has_field c F_vid text Htext) as H.
      unfold field_lines, block_of in H. by rewrite Hv in H.
    + pose proof (generate_has_field c F_pid text Htext) as H.
      unfold field_lines, block_of in H. by rewrite Hv in H.
    + pose proof (generate_has_field c F_device_ver text Htext) as H.
      unfold field_lines, block_of in H. by rewrite Hv in H.
    + by apply not_elem_of_nil in Hnil.
Qed.

Lemma scalar_blocks_witness :
  has_lines full_text
    [""; "#ifndef DESCRIPTION"; "#    define DESCRIPTION Planck"; "#endif // DESCRIPTION";
     ""; "#ifndef PRODUCT"; "#    define PRODUCT Planck"; "#endif // PRODUCT"; ""]
  ∧ has_lines full_text
      [""; "#ifndef DEVICE_VER"; "#    define DEVICE_VER 1"; "#endif // DEVICE_VER"].
Proof.
  destruct (scalar_blocks full_record full_text eq_refl) as (_ & Hname & _ & Husb).
  split; [exact (Hname "Planck" eq_refl) |].
  apply (Husb "device_ver" "DEVICE_VER" (SInt 1)); [| reflexivity].
  apply (bool_decide_unpack _). vm_compute. exact I.
Defined.

(** ** The shape of the header *)






